(** * SymphonyElectron main-process control layer

    A shallow embedding of the IPC dispatcher ([main-api-handler.ts]), the
    screen-capture session ([screen-snippet-handler.ts]) and the pod login
    flow, together with the properties stated about them. *)

From Stdlib Require Import ZArith Lia List Bool.
From Stdlib Require Import Strings.Byte Ascii String.
From stdpp Require Import base option list strings pretty gmap.

Local Open Scope Z_scope.

(** ** Base64 as produced by [Buffer.prototype.toString('base64')]

    Node's encoder follows RFC 4648 with the standard alphabet and [=]
    padding: three bytes are packed into a 24-bit group and cut into four
    sextets. *)
Module Base64.

Definition alphabet : string :=
  "ABCDEFGHIJKLMNOPQRSTUVWXYZabcdefghijklmnopqrstuvwxyz0123456789+/".

Definition pad : ascii := "="%char.

Definition byte_val (b : byte) : Z := Z.of_N (Byte.to_N b).

Definition byte_of (z : Z) : option byte := Byte.of_N (Z.to_N z).

(* sextet number [i] (0 is the most significant) of a 24-bit group *)
Definition sextet (n : Z) (i : Z) : Z :=
  Z.land (Z.shiftr n (18 - 6 * i)) 63.

Definition group3 (a b c : Z) : Z :=
  Z.lor (Z.shiftl a 16) (Z.lor (Z.shiftl b 8) c).

Definition enc_char (s : Z) : ascii :=
  match String.get (Z.to_nat s) alphabet with
  | Some c => c
  | None => pad
  end.

Fixpoint index_from (c : ascii) (s : string) (i : Z) : option Z :=
  match s with
  | EmptyString => None
  | String d s' => if Ascii.eqb c d then Some i else index_from c s' (i + 1)
  end.

Definition dec_char (c : ascii) : option Z := index_from c alphabet 0.

Fixpoint encode (bs : list byte) : string :=
  match bs with
  | [] => EmptyString
  | [a] =>
      let n := group3 (byte_val a) 0 0 in
      String (enc_char (sextet n 0)) (String (enc_char (sextet n 1))
        (String pad (String pad EmptyString)))
  | [a; b] =>
      let n := group3 (byte_val a) (byte_val b) 0 in
      String (enc_char (sextet n 0)) (String (enc_char (sextet n 1))
        (String (enc_char (sextet n 2)) (String pad EmptyString)))
  | a :: b :: c :: rest =>
      let n := group3 (byte_val a) (byte_val b) (byte_val c) in
      String (enc_char (sextet n 0)) (String (enc_char (sextet n 1))
        (String (enc_char (sextet n 2)) (String (enc_char (sextet n 3))
          (encode rest))))
  end.

(** The reading side, [Buffer.from(data, 'base64')] on well-formed input:
    four characters give back a 24-bit group, padding marks a short last
    group. *)
Definition group4 (s0 s1 s2 s3 : Z) : Z :=
  Z.lor (Z.shiftl s0 18)
    (Z.lor (Z.shiftl s1 12) (Z.lor (Z.shiftl s2 6) s3)).

(* byte number [i] (0 is the most significant) of a 24-bit group *)
Definition octet (n : Z) (i : Z) : option byte :=
  byte_of (Z.land (Z.shiftr n (16 - 8 * i)) 255).

Definition is_empty (s : string) : bool :=
  match s with EmptyString => true | _ => false end.

Fixpoint decode (s : string) : option (list byte) :=
  match s with
  | EmptyString => Some []
  | String c0 (String c1 (String c2 (String c3 rest))) =>
      s0 ← dec_char c0;
      s1 ← dec_char c1;
      if Ascii.eqb c2 pad then
        if Ascii.eqb c3 pad && is_empty rest then
          a ← octet (group4 s0 s1 0 0) 0;
          Some [a]
        else None
      else
        s2 ← dec_char c2;
        if Ascii.eqb c3 pad then
          if is_empty rest then
            a ← octet (group4 s0 s1 s2 0) 0;
            b ← octet (group4 s0 s1 s2 0) 1;
            Some [a; b]
          else None
        else
          s3 ← dec_char c3;
          a ← octet (group4 s0 s1 s2 s3) 0;
          b ← octet (group4 s0 s1 s2 s3) 1;
          c ← octet (group4 s0 s1 s2 s3) 2;
          tl ← decode rest;
          Some (a :: b :: c :: tl)
  | _ => None
  end.

End Base64.

(** ** JavaScript values that cross the IPC boundary

    Arguments of an API call arrive as structured clones: plain data with
    no prototype behaviour.  Objects keep their keys in insertion order,
    which is the order [JSON.stringify] prints them in, so they are
    association lists.  Strings are kept as byte strings (their UTF-8
    form); numbers are the integers the handlers compare and count with. *)
Module JS.

#[warnings="-register-all"]
Inductive value : Type :=
| VUndef
| VNull
| VBool (b : bool)
| VNum (n : Z)
| VStr (s : string)
| VBytes (bs : list byte)            (* Uint8Array / Buffer *)
| VHandle (id : nat)                 (* a native object: webContents, window *)
| VArr (xs : list value)
| VObj (fields : list (string * value)).

Inductive jstype := TUndefined | TObject | TBoolean | TNumber | TString.

Definition typeof (v : value) : jstype :=
  match v with
  | VUndef => TUndefined
  | VBool _ => TBoolean
  | VNum _ => TNumber
  | VStr _ => TString
  | VNull | VBytes _ | VHandle _ | VArr _ | VObj _ => TObject
  end.

Definition jstype_eqb (a b : jstype) : bool :=
  match a, b with
  | TUndefined, TUndefined | TObject, TObject | TBoolean, TBoolean
  | TNumber, TNumber | TString, TString => true
  | _, _ => false
  end.

Definition is_empty_string (s : string) : bool :=
  match s with EmptyString => true | _ => false end.

(* ToBoolean *)
Definition truthy (v : value) : bool :=
  match v with
  | VUndef | VNull => false
  | VBool b => b
  | VNum n => negb (n =? 0)
  | VStr s => negb (is_empty_string s)
  | VBytes _ | VHandle _ | VArr _ | VObj _ => true
  end.

Definition nullish (v : value) : bool :=
  match v with VUndef | VNull => true | _ => false end.

Definition isArray (v : value) : bool :=
  match v with VArr _ => true | _ => false end.

Fixpoint assoc (k : string) (fs : list (string * value)) : option value :=
  match fs with
  | [] => None
  | (k', v) :: fs' => if String.eqb k k' then Some v else assoc k fs'
  end.

(* [v.k] on a value that is not null or undefined; reading a property of
   null or undefined raises a TypeError, which callers test with
   [nullish] first. *)
Definition prop (k : string) (v : value) : value :=
  match v with
  | VObj fs => default VUndef (assoc k fs)
  | _ => VUndef
  end.

(* [o[k] = v] on the property list: an existing key keeps its place *)
Fixpoint set_prop (k : string) (v : value) (fs : list (string * value))
  : list (string * value) :=
  match fs with
  | [] => [(k, v)]
  | (k', v') :: fs' =>
      if String.eqb k k' then (k, v) :: fs' else (k', v') :: set_prop k v fs'
  end.

Fixpoint indexed_from (i : nat) (xs : list value) : list (string * value) :=
  match xs with
  | [] => []
  | x :: xs' => (pretty i, x) :: indexed_from (S i) xs'
  end.

Definition chars_of (s : string) : list value :=
  map (fun c => VStr (String c EmptyString)) (list_ascii_of_string s).

Definition byte_num (b : byte) : value := VNum (Z.of_N (Byte.to_N b)).

(* own enumerable properties, as copied by the spread [{...v}] *)
Definition own_props (v : value) : list (string * value) :=
  match v with
  | VObj fs => fs
  | VArr xs => indexed_from 0 xs
  | VStr s => indexed_from 0 (chars_of s)
  | VBytes bs => indexed_from 0 (map byte_num bs)
  | VUndef | VNull | VBool _ | VNum _ | VHandle _ => []
  end.

Definition string_bytes (s : string) : list byte :=
  map byte_of_ascii (list_ascii_of_string s).

Definition num_byte (v : value) : byte :=
  match v with
  | VNum n => default x00 (Byte.of_N (Z.to_N (n mod 256)))
  | _ => x00
  end.

(* [Buffer.from(v)]: strings, typed arrays and arrays are accepted, any
   other argument raises a TypeError ([None]) *)
Definition buffer_from (v : value) : option (list byte) :=
  match v with
  | VStr s => Some (string_bytes s)
  | VBytes bs => Some bs
  | VArr xs => Some (map num_byte xs)
  | _ => None
  end.

(* strict equality with a string constant *)
Definition is_str (s : string) (v : value) : bool :=
  match v with VStr s' => String.eqb s s' | _ => false end.

End JS.

(** ** The screen-capture session ([class ScreenSnippet])

    The class keeps its fields in [this]; everything else it reads or
    changes (the main window, the file system, the child processes, the
    messages it sends) is the world part of [State].  An [async] method is
    cut at the
    point where it waits for the capture tool: [capture] runs up to the
    [execFile] call, and the rest of its body runs from [child_exit], when
    the tool's exit callback settles the promise.  Calls to [logger] are
    left out: they neither read nor change anything modelled here. *)
Module ScreenSnippet.

Inductive platform := Mac | WindowsOS | Linux | OtherOS.

Record Env := {
  os : platform;
  isElectronQA : bool;
  isDevEnv : bool;
  sep : string;                       (* path separator of the host *)
  os_tmpdir : string;                 (* os.tmpdir() *)
  userData : string;                  (* app.getPath('userData') *)
  dirname : string;                   (* __dirname *)
  exeDir : string;                    (* path.dirname(app.getPath('exe')) *)
  sizeOf : list byte -> option (Z * Z) (* image-size; [None] when it throws *)
}.

Definition isMac (e : Env) : bool :=
  match os e with Mac => true | _ => false end.
Definition isWindowsOS (e : Env) : bool :=
  match os e with WindowsOS => true | _ => false end.
Definition isLinux (e : Env) : bool :=
  match os e with Linux => true | _ => false end.

(* [path.join] of two segments; the result is not normalised *)
Definition path_join (e : Env) (a b : string) : string := a +:+ sep e +:+ b.

Record IScreenSnippet := {
  message : string;
  data : option string;
  type : string
}.

Record Window := {
  destroyed : bool;
  alwaysOnTop : bool
}.

Inductive node :=
| Regular (content : list byte)
| Faulty (code : string) (text : string). (* reading it fails with this error *)

(* a process is live while it is [PRunning] *)
Inductive pstatus :=
| PRunning      (* spawned, no signal sent, exit callback not yet run *)
| PKilled       (* [kill()] was called on the handle *)
| PExited.      (* the exit callback has run *)

(* what waits for the promise of [execCmd] *)
Inductive cont :=
| CaptureK (webContents : nat)
| CancelK.

Inductive event :=
| EvUpdateAlwaysOnTop (b : bool)
| EvSpawn (h : nat) (util : string) (args : list string)
| EvKill (h : nat)
| EvSend (webContents : nat) (channel : string) (payload : IScreenSnippet)
| EvUnlink (path : string)
| EvMoveTop (w : nat)
| EvCloseSnippingToolWindow
| EvCreateSnippingToolWindow (path : option string) (dims : option (Z * Z))
| EvOnceUploadSnippet (webContents : nat).

Record State := {
  (* fields of [this] *)
  tempDir : string;
  captureUtil : string;
  outputFileName : option string;
  captureUtilArgs : option (list string);
  child : option nat;
  focusedWindow : option nat;
  shouldUpdateAlwaysOnTop : bool;
  (* the world *)
  mainWindow : option Window;         (* windowHandler.getMainWindow() *)
  isMana : bool;                      (* windowHandler.isMana *)
  locale : string;                    (* i18n.getLocale() *)
  focused : option nat;               (* BrowserWindow.getFocusedWindow() *)
  existing : gset nat;                (* windows for which windowExists holds *)
  files : gmap string node;
  procs : list pstatus;               (* indexed by process handle *)
  pending : list (nat * cont);        (* promises of execCmd not yet settled *)
  uploadListeners : list nat;         (* ipcMain.once('upload-snippet') *)
  trace : list event
}.

Definition emit (ev : event) (st : State) : State :=
  {| tempDir := tempDir st; captureUtil := captureUtil st;
     outputFileName := outputFileName st;
     captureUtilArgs := captureUtilArgs st; child := child st;
     focusedWindow := focusedWindow st;
     shouldUpdateAlwaysOnTop := shouldUpdateAlwaysOnTop st;
     mainWindow := mainWindow st; isMana := isMana st; locale := locale st;
     focused := focused st; existing := existing st; files := files st;
     procs := procs st; pending := pending st;
     uploadListeners := uploadListeners st; trace := trace st ++ [ev] |}.

Definition set_shouldUpdateAlwaysOnTop (b : bool) (st : State) : State :=
  {| tempDir := tempDir st; captureUtil := captureUtil st;
     outputFileName := outputFileName st;
     captureUtilArgs := captureUtilArgs st; child := child st;
     focusedWindow := focusedWindow st;
     shouldUpdateAlwaysOnTop := b;
     mainWindow := mainWindow st; isMana := isMana st; locale := locale st;
     focused := focused st; existing := existing st; files := files st;
     procs := procs st; pending := pending st;
     uploadListeners := uploadListeners st; trace := trace st |}.

Definition set_mainWindow (w : option Window) (st : State) : State :=
  {| tempDir := tempDir st; captureUtil := captureUtil st;
     outputFileName := outputFileName st;
     captureUtilArgs := captureUtilArgs st; child := child st;
     focusedWindow := focusedWindow st;
     shouldUpdateAlwaysOnTop := shouldUpdateAlwaysOnTop st;
     mainWindow := w; isMana := isMana st; locale := locale st;
     focused := focused st; existing := existing st; files := files st;
     procs := procs st; pending := pending st;
     uploadListeners := uploadListeners st; trace := trace st |}.

Definition set_output (f : option string) (args : option (list string))
    (st : State) : State :=
  {| tempDir := tempDir st; captureUtil := captureUtil st;
     outputFileName := f; captureUtilArgs := args; child := child st;
     focusedWindow := focusedWindow st;
     shouldUpdateAlwaysOnTop := shouldUpdateAlwaysOnTop st;
     mainWindow := mainWindow st; isMana := isMana st; locale := locale st;
     focused := focused st; existing := existing st; files := files st;
     procs := procs st; pending := pending st;
     uploadListeners := uploadListeners st; trace := trace st |}.

Definition set_focusedWindow (w : option nat) (st : State) : State :=
  {| tempDir := tempDir st; captureUtil := captureUtil st;
     outputFileName := outputFileName st;
     captureUtilArgs := captureUtilArgs st; child := child st;
     focusedWindow := w;
     shouldUpdateAlwaysOnTop := shouldUpdateAlwaysOnTop st;
     mainWindow := mainWindow st; isMana := isMana st; locale := locale st;
     focused := focused st; existing := existing st; files := files st;
     procs := procs st; pending := pending st;
     uploadListeners := uploadListeners st; trace := trace st |}.

Definition set_files (fs : gmap string node) (st : State) : State :=
  {| tempDir := tempDir st; captureUtil := captureUtil st;
     outputFileName := outputFileName st;
     captureUtilArgs := captureUtilArgs st; child := child st;
     focusedWindow := focusedWindow st;
     shouldUpdateAlwaysOnTop := shouldUpdateAlwaysOnTop st;
     mainWindow := mainWindow st; isMana := isMana st; locale := locale st;
     focused := focused st; existing := existing st; files := fs;
     procs := procs st; pending := pending st;
     uploadListeners := uploadListeners st; trace := trace st |}.

Definition set_procs (c : option nat) (ps : list pstatus)
    (pd : list (nat * cont)) (st : State) : State :=
  {| tempDir := tempDir st; captureUtil := captureUtil st;
     outputFileName := outputFileName st;
     captureUtilArgs := captureUtilArgs st; child := c;
     focusedWindow := focusedWindow st;
     shouldUpdateAlwaysOnTop := shouldUpdateAlwaysOnTop st;
     mainWindow := mainWindow st; isMana := isMana st; locale := locale st;
     focused := focused st; existing := existing st; files := files st;
     procs := ps; pending := pd;
     uploadListeners := uploadListeners st; trace := trace st |}.

Definition set_uploadListeners (ls : list nat) (st : State) : State :=
  {| tempDir := tempDir st; captureUtil := captureUtil st;
     outputFileName := outputFileName st;
     captureUtilArgs := captureUtilArgs st; child := child st;
     focusedWindow := focusedWindow st;
     shouldUpdateAlwaysOnTop := shouldUpdateAlwaysOnTop st;
     mainWindow := mainWindow st; isMana := isMana st; locale := locale st;
     focused := focused st; existing := existing st; files := files st;
     procs := procs st; pending := pending st;
     uploadListeners := ls; trace := trace st |}.

(* the remaining fields of the world change only from outside *)
Definition set_world (mana : bool) (foc : option nat) (ex : gset nat)
    (st : State) : State :=
  {| tempDir := tempDir st; captureUtil := captureUtil st;
     outputFileName := outputFileName st;
     captureUtilArgs := captureUtilArgs st; child := child st;
     focusedWindow := focusedWindow st;
     shouldUpdateAlwaysOnTop := shouldUpdateAlwaysOnTop st;
     mainWindow := mainWindow st; isMana := mana; locale := locale st;
     focused := foc; existing := ex; files := files st;
     procs := procs st; pending := pending st;
     uploadListeners := uploadListeners st; trace := trace st |}.

(** [constructor()], in a world with the given main window and locale *)
Definition init (e : Env) (w : option Window) (loc : string) : State :=
  {| tempDir :=
       if isElectronQA e then os_tmpdir e else path_join e (userData e) "temp";
     captureUtil :=
       if isLinux e then "/usr/bin/gnome-screenshot"
       else if isMac e then "/usr/sbin/screencapture"
       else if isDevEnv e then
         path_join e (dirname e)
           "../../../node_modules/screen-snippet/ScreenSnippet.exe"
       else path_join e (exeDir e) "ScreenSnippet.exe";
     outputFileName := None; captureUtilArgs := None; child := None;
     focusedWindow := None; shouldUpdateAlwaysOnTop := false;
     mainWindow := w; isMana := false; locale := loc; focused := None;
     existing := ∅; files := ∅; procs := []; pending := [];
     uploadListeners := []; trace := [] |}.

(** Modelled from the spec: [updateAlwaysOnTop] of window-actions, whose
    source is not part of this unit.  It switches the "keep window always
    on top" setting of the main window to the given value. *)
Definition updateAlwaysOnTop (b : bool) (st : State) : State :=
  emit (EvUpdateAlwaysOnTop b)
    (set_mainWindow
       (match mainWindow st with
        | Some w => Some {| destroyed := destroyed w; alwaysOnTop := b |}
        | None => None
        end) st).

Definition verifyAndUpdateAlwaysOnTop (st : State) : State :=
  if shouldUpdateAlwaysOnTop st then
    set_shouldUpdateAlwaysOnTop false (updateAlwaysOnTop true st)
  else st.

Definition kill_status (s : pstatus) : pstatus :=
  match s with PRunning => PKilled | _ => s end.

(* [this.child.kill] is a function on every ChildProcess handle *)
Definition killChildProcess (st : State) : State :=
  match child st with
  | Some h =>
      emit (EvKill h)
        (set_procs (child st) (alter kill_status h (procs st)) (pending st) st)
  | None => st
  end.

(* [execCmd]: the new handle is stored in [this.child]; the returned
   promise is settled by the exit callback, see [child_exit] *)
Definition execCmd (util : string) (args : list string) (k : cont)
    (st : State) : State :=
  let h := length (procs st) in
  emit (EvSpawn h util args)
    (set_procs (Some h) (procs st ++ [PRunning]) (pending st ++ [(h, k)]) st).

Definition deleteFile (path : string) (st : State) : State :=
  emit (EvUnlink path) (set_files (delete path (files st)) st).

Definition error_payload (msg : string) : IScreenSnippet :=
  {| message := msg; data := None; type := "ERROR" |}.

Definition convertFileToData_finally (st : State) : State :=
  let st1 :=
    match focusedWindow st with
    | Some w => if decide (w ∈ existing st) then emit (EvMoveTop w) st else st
    | None => st
    end in
  match outputFileName st1 with
  | Some f => if JS.is_empty_string f then st1 else deleteFile f st1
  | None => st1
  end.

(* a Buffer is an object, so [!data] never holds after a successful read *)
Definition convertFileToData (st : State) : IScreenSnippet * State :=
  let result :=
    match outputFileName st with
    | None => error_payload "output file name is required"
    | Some f =>
        if JS.is_empty_string f then
          error_payload "output file name is required"
        else
          match files st !! f with
          | Some (Regular content) =>
              {| message := "success"; data := Some (Base64.encode content);
                 type := "image/png;base64" |}
          | Some (Faulty code text) =>
              if String.eqb code "ENOENT" then
                error_payload "file does not exist"
              else error_payload text
          | None => error_payload "file does not exist"
          end
    end in
  (result, convertFileToData_finally st).

Definition getImageSize (e : Env) (st : State) : option (option (Z * Z)) :=
  match outputFileName st with
  | None => Some None
  | Some f =>
      if JS.is_empty_string f then Some None
      else
        match files st !! f with
        | Some (Regular content) =>
            match sizeOf e content with
            | Some d => Some (Some d)
            | None => None
            end
        | _ => None
        end
  end.

Definition uploadSnippet (wc : nat) (st : State) : State :=
  emit (EvOnceUploadSnippet wc)
    (set_uploadListeners (uploadListeners st ++ [wc]) st).

Definition capture_args (e : Env) (st : State) (f : string) : list string :=
  match os e with
  | Mac => ["-i"; "-s"; "-t"; "png"; f]
  | WindowsOS =>
      if isMana st then ["--no-annotate"; f; locale st] else [f; locale st]
  | Linux => ["-a"; "-f"; f]
  | OtherOS => []
  end.

(* [path.join(this.tempDir, 'symphonyImage-' + Date.now() + '.png')] *)
Definition output_path (e : Env) (now : Z) (st : State) : string :=
  path_join e (tempDir st) ("symphonyImage-" +:+ pretty now +:+ ".png").

(* the opening of [capture]: on Windows with a live main window the
   always-on-top setting is remembered and switched off *)
Definition suspend (e : Env) (st : State) : State :=
  match mainWindow st with
  | Some w =>
      if negb (destroyed w) && isWindowsOS e then
        let st' := set_shouldUpdateAlwaysOnTop (alwaysOnTop w) st in
        if alwaysOnTop w then updateAlwaysOnTop false st' else st'
      else st
  | None => st
  end.

(** [capture(webContents)] up to the [await] of [execCmd] *)
Definition capture (e : Env) (now : Z) (wc : nat) (st : State) : State :=
  let st1 := suspend e st in
  let f := output_path e now st1 in
  let st2 := set_output (Some f) (Some (capture_args e st1 f)) st1 in
  let st3 := set_focusedWindow (focused st2) st2 in
  let st4 := match child st3 with
             | Some _ => killChildProcess st3
             | None => st3
             end in
  execCmd (captureUtil st4) (capture_args e st1 f) (CaptureK wc) st4.

(** the body of [capture] after [execCmd] resolved; the requesting web
    contents are taken to be alive, so that [send] does not raise *)
Definition capture_resolved (e : Env) (wc : nat) (st : State) : State :=
  if isMana st then
    let st1 := emit EvCloseSnippingToolWindow st in
    match getImageSize e st1 with
    | Some dims =>
        uploadSnippet wc
          (emit (EvCreateSnippingToolWindow (outputFileName st1) dims) st1)
    | None => verifyAndUpdateAlwaysOnTop st1      (* the catch block *)
    end
  else
    let '(p, st1) := convertFileToData st in
    verifyAndUpdateAlwaysOnTop (emit (EvSend wc "screen-snippet-data" p) st1).

(** the [catch] block of [capture], after [execCmd] rejected *)
Definition capture_rejected (st : State) : State :=
  verifyAndUpdateAlwaysOnTop st.

(** [cancelCapture()] up to the [await] of [execCmd] *)
Definition cancelCapture (e : Env) (st : State) : State :=
  if negb (isWindowsOS e) then st
  else
    let st1 := set_focusedWindow (focused st) st in
    execCmd (captureUtil st1) [] CancelK st1.

Definition run_cont (e : Env) (k : cont) (killed : bool) (st : State) : State :=
  match k with
  | CaptureK wc => if killed then capture_rejected st else capture_resolved e wc st
  | CancelK => verifyAndUpdateAlwaysOnTop st
  end.

Fixpoint take_pending (h : nat) (pd : list (nat * cont))
  : option (cont * list (nat * cont)) :=
  match pd with
  | [] => None
  | (h', k) :: pd' =>
      if Nat.eqb h h' then Some (k, pd')
      else match take_pending h pd' with
           | Some (k', rest) => Some (k', (h', k) :: rest)
           | None => None
           end
  end.

(** The exit callback of [execFile] for handle [h]: the promise is
    rejected when the error says the process was killed and resolved
    otherwise, and the code waiting for it runs. *)
Definition child_exit (e : Env) (h : nat) (st : State) : State :=
  match procs st !! h, take_pending h (pending st) with
  | Some PRunning, Some (k, rest) =>
      run_cont e k false (set_procs (child st) (<[h := PExited]> (procs st)) rest st)
  | Some PKilled, Some (k, rest) =>
      run_cont e k true (set_procs (child st) (<[h := PExited]> (procs st)) rest st)
  | _, _ => st
  end.

Record SnippetData := {
  screenSnippetPath : string;
  mergedImageData : string
}.

Fixpoint split_comma (s : string) (acc : string) : list string :=
  match s with
  | EmptyString => [acc]
  | String c s' =>
      if Ascii.eqb c "," then acc :: split_comma s' EmptyString
      else split_comma s' (acc +:+ String c EmptyString)
  end.

(* one listener registered by [uploadSnippet] *)
Definition upload_listener (d : SnippetData) (st : State) (wc : nat) : State :=
  let st1 := emit EvCloseSnippingToolWindow st in
  let parts := split_comma (mergedImageData d) EmptyString in
  let payload :=
    {| message := "SUCCESS"; data := parts !! 1%nat;
       type := default EmptyString (parts !! 0%nat) |} in
  let st2 :=
    verifyAndUpdateAlwaysOnTop (emit (EvSend wc "screen-snippet-data" payload) st1) in
  deleteFile (screenSnippetPath d) st2.

(** an 'upload-snippet' message: every listener registered with
    [ipcMain.once] runs once and is removed *)
Definition on_upload_snippet (d : SnippetData) (st : State) : State :=
  foldl (upload_listener d) (set_uploadListeners [] st) (uploadListeners st).

(** What can happen to a session, one step at a time. *)
Inductive op :=
| OpCapture (now : Z) (wc : nat)
| OpCancelCapture
| OpKillChildProcess
| OpChildExit (h : nat)
| OpUploadSnippet (d : SnippetData)
| OpToolWrites (path : string) (content : node)   (* the tool saves a file *)
| OpMainWindow (w : option Window)               (* the main window changes *)
| OpWorld (mana : bool) (foc : option nat) (ex : gset nat).

Definition step (e : Env) (o : op) (st : State) : State :=
  match o with
  | OpCapture now wc => capture e now wc st
  | OpCancelCapture => cancelCapture e st
  | OpKillChildProcess => killChildProcess st
  | OpChildExit h => child_exit e h st
  | OpUploadSnippet d => on_upload_snippet d st
  | OpToolWrites path content => set_files (<[path := content]> (files st)) st
  | OpMainWindow w => set_mainWindow w st
  | OpWorld mana foc ex => set_world mana foc ex st
  end.

Definition run (e : Env) (ops : list op) (st : State) : State :=
  foldl (fun s o => step e o s) st ops.

Definition running (st : State) (h : nat) : Prop := procs st !! h = Some PRunning.


(** One capture that nothing else overlaps: the call, what the tool does
    to its output file, possibly a [killChildProcess] from outside, and the
    exit callback. *)
Definition capture_attempt (e : Env) (now : Z) (wc : nat)
    (written : option node) (killed : bool) (st : State) : State :=
  let st1 := capture e now wc st in
  let st2 := match written, outputFileName st1 with
             | Some content, Some f => step e (OpToolWrites f content) st1
             | _, _ => st1
             end in
  let st3 := if killed then killChildProcess st2 else st2 in
  match child st1 with
  | Some h => child_exit e h st3
  | None => st3
  end.


Definition is_aot_update (ev : event) : bool :=
  match ev with EvUpdateAlwaysOnTop _ => true | _ => false end.

(* what [st'] has emitted since [st] *)
Definition new_events (st st' : State) : list event :=
  drop (length (trace st)) (trace st').

(** From [st] to [st'] nothing touched the always-on-top setting: the main
    window and the pending-restore flag are as they were, and
    [updateAlwaysOnTop] was not called. *)
Definition keeps_always_on_top (st st' : State) : Prop :=
  shouldUpdateAlwaysOnTop st' = shouldUpdateAlwaysOnTop st /\
  mainWindow st' = mainWindow st /\
  exists evs, trace st' = trace st ++ evs /\
              Forall (fun ev => is_aot_update ev = false) evs.

(** Which part of the state an operation leaves alone. *)
Definition same_procs (st st' : State) : Prop :=
  procs st' = procs st /\ child st' = child st /\ pending st' = pending st.


Definition pending_bounded (st : State) : Prop :=
  forall h k, In (h, k) (pending st) -> (h < length (procs st))%nat.

Definition is_cleanup (ev : event) : bool :=
  match ev with EvUnlink _ | EvSend _ _ _ => true | _ => false end.

(* the main window as [verifyAndUpdateAlwaysOnTop] leaves it *)
Definition restore_target (s : State) : option Window :=
  if shouldUpdateAlwaysOnTop s then
    match mainWindow s with
    | Some w => Some {| destroyed := destroyed w; alwaysOnTop := true |}
    | None => None
    end
  else mainWindow s.

(** Hosts to run the session on. *)
Definition host (p : platform) (separator : string) : Env :=
  {| os := p; isElectronQA := false; isDevEnv := false; sep := separator;
     os_tmpdir := "/tmp"; userData := "/home/user/.config/Symphony";
     dirname := "/opt/Symphony/app"; exeDir := "/opt/Symphony";
     sizeOf := fun _ => Some (640, 480) |}.

Definition mac_host : Env := host Mac "/".
Definition windows_host : Env := host WindowsOS "\".

Definition on_top_window : Window := {| destroyed := false; alwaysOnTop := true |}.

(** *** Further vocabulary for runs of the session *)

Definition is_send (ev : event) : bool :=
  match ev with EvSend _ _ _ => true | _ => false end.

(* the exit callback of process [h] *)
Definition is_exit_of (h : nat) (o : op) : bool :=
  match o with OpChildExit h' => Nat.eqb h h' | _ => false end.


(** [cancelCapture()] from start to finish: the call, possibly a
    [killChildProcess] from outside, and the exit callback of the process it
    started.  Off Windows the method returns at once. *)
Definition cancel_attempt (e : Env) (killed : bool) (st : State) : State :=
  if isWindowsOS e then
    let st1 := cancelCapture e st in
    let st2 := if killed then killChildProcess st1 else st1 in
    match child st1 with
    | Some h => child_exit e h st2
    | None => st2
    end
  else cancelCapture e st.


End ScreenSnippet.

(** ** The members of [enum apiCmds] that main-api-handler.ts names *)
Module apiCmds.

Inductive t :=
| isOnline | setBadgeCount | registerProtocolHandler | registerLogRetriever
| sendLogs | badgeDataUrl | activate | registerLogger
| registerActivityDetection | registerDownloadHandler
| showNotificationSettings | sanitize | bringToFront
| openScreenPickerWindow | popupMenu | setLocale | keyPress | getMyPresence
| openScreenSnippet | closeScreenSnippet | closeWindow
| openScreenSharingIndicator | downloadManagerAction | openDownloadedItem
| showDownloadedItem | clearDownloadedItems | restartApp | setIsInMeeting
| memoryInfo | getConfigUrl | registerAnalyticsHandler | setCloudConfig
| setIsMana | showNotification | closeNotification | closeAllWrapperWindows
| setZoomLevel | aboutAppClipBoardData | closeMainWindow
| minimizeMainWindow | maximizeMainWindow | unmaximizeMainWindow
| browserLogin | setBroadcastMessage | handleSwiftSearchMessageEvents
| connectCloud9Pipe | writeCloud9Pipe | closeCloud9Pipe | launchCloud9
| terminateCloud9 | updateAndRestart | downloadUpdate | checkForUpdates
| onSwiftSearchMessage
| getCurrentOriginUrl | isAeroGlassEnabled | showScreenSharePermissionDialog
| getMediaAccessStatus | getSources | getNativeWindowHandle
| getCitrixMediaRedirectionStatus.

(* the labels of the two [switch] statements, in source order *)
Definition on_cases : list t :=
  [ isOnline; setBadgeCount; registerProtocolHandler; registerLogRetriever;
    sendLogs; badgeDataUrl; activate; registerLogger;
    registerActivityDetection; registerDownloadHandler;
    showNotificationSettings; sanitize; bringToFront;
    openScreenPickerWindow; popupMenu; setLocale; keyPress; getMyPresence;
    openScreenSnippet; closeScreenSnippet; closeWindow;
    openScreenSharingIndicator; downloadManagerAction; openDownloadedItem;
    showDownloadedItem; clearDownloadedItems; restartApp; setIsInMeeting;
    memoryInfo; getConfigUrl; registerAnalyticsHandler; setCloudConfig;
    setIsMana; showNotification; closeNotification; closeAllWrapperWindows;
    setZoomLevel; aboutAppClipBoardData; closeMainWindow;
    minimizeMainWindow; maximizeMainWindow; unmaximizeMainWindow;
    browserLogin; setBroadcastMessage; handleSwiftSearchMessageEvents;
    connectCloud9Pipe; writeCloud9Pipe; closeCloud9Pipe; launchCloud9;
    terminateCloud9; updateAndRestart; downloadUpdate; checkForUpdates ].

Definition handle_cases : list t :=
  [ getCurrentOriginUrl; isAeroGlassEnabled; showScreenSharePermissionDialog;
    getMediaAccessStatus; getSources; getNativeWindowHandle;
    getCitrixMediaRedirectionStatus ].

Definition log_cases : list t :=
  [ showNotification; badgeDataUrl; openScreenPickerWindow; sendLogs;
    writeCloud9Pipe ].

(* a tag table to run the handlers with: each member under its own name *)
Definition name (c : t) : string :=
  match c with
  | isOnline => "isOnline" | setBadgeCount => "setBadgeCount"
  | registerProtocolHandler => "registerProtocolHandler"
  | registerLogRetriever => "registerLogRetriever"
  | sendLogs => "sendLogs" | badgeDataUrl => "badgeDataUrl"
  | activate => "activate" | registerLogger => "registerLogger"
  | registerActivityDetection => "registerActivityDetection"
  | registerDownloadHandler => "registerDownloadHandler"
  | showNotificationSettings => "showNotificationSettings"
  | sanitize => "sanitize" | bringToFront => "bringToFront"
  | openScreenPickerWindow => "openScreenPickerWindow"
  | popupMenu => "popupMenu" | setLocale => "setLocale"
  | keyPress => "keyPress" | getMyPresence => "getMyPresence"
  | openScreenSnippet => "openScreenSnippet"
  | closeScreenSnippet => "closeScreenSnippet"
  | closeWindow => "closeWindow"
  | openScreenSharingIndicator => "openScreenSharingIndicator"
  | downloadManagerAction => "downloadManagerAction"
  | openDownloadedItem => "openDownloadedItem"
  | showDownloadedItem => "showDownloadedItem"
  | clearDownloadedItems => "clearDownloadedItems"
  | restartApp => "restartApp" | setIsInMeeting => "setIsInMeeting"
  | memoryInfo => "memoryInfo" | getConfigUrl => "getConfigUrl"
  | registerAnalyticsHandler => "registerAnalyticsHandler"
  | setCloudConfig => "setCloudConfig" | setIsMana => "setIsMana"
  | showNotification => "showNotification"
  | closeNotification => "closeNotification"
  | closeAllWrapperWindows => "closeAllWrapperWindows"
  | setZoomLevel => "setZoomLevel"
  | aboutAppClipBoardData => "aboutAppClipBoardData"
  | closeMainWindow => "closeMainWindow"
  | minimizeMainWindow => "minimizeMainWindow"
  | maximizeMainWindow => "maximizeMainWindow"
  | unmaximizeMainWindow => "unmaximizeMainWindow"
  | browserLogin => "browserLogin"
  | setBroadcastMessage => "setBroadcastMessage"
  | handleSwiftSearchMessageEvents => "handleSwiftSearchMessageEvents"
  | connectCloud9Pipe => "connectCloud9Pipe"
  | writeCloud9Pipe => "writeCloud9Pipe"
  | closeCloud9Pipe => "closeCloud9Pipe" | launchCloud9 => "launchCloud9"
  | terminateCloud9 => "terminateCloud9"
  | updateAndRestart => "updateAndRestart"
  | downloadUpdate => "downloadUpdate" | checkForUpdates => "checkForUpdates"
  | onSwiftSearchMessage => "onSwiftSearchMessage"
  | getCurrentOriginUrl => "getCurrentOriginUrl"
  | isAeroGlassEnabled => "isAeroGlassEnabled"
  | showScreenSharePermissionDialog => "showScreenSharePermissionDialog"
  | getMediaAccessStatus => "getMediaAccessStatus"
  | getSources => "getSources"
  | getNativeWindowHandle => "getNativeWindowHandle"
  | getCitrixMediaRedirectionStatus => "getCitrixMediaRedirectionStatus"
  end.

End apiCmds.

(** ** main-api-handler.ts *)
Module ApiHandler.
Import JS.

Record BrowserWin := {
  winName : string;
  winExists : bool;                   (* windowExists(win) *)
  isFullScreen : bool;
  origin : value
}.

Record ParsedDomain := {
  subdomain : string;
  domain : string;
  tld : string
}.

(** What a handler reads from its collaborators while it runs. *)
Record Ctx := {
  sender : nat;                       (* event.sender *)
  senderWindowId : option nat;        (* BrowserWindow.fromWebContents(event.sender) *)
  senderWindow : option BrowserWin;
  mainWebContents : option bool;      (* [Some d]: present, isDestroyed() = d *)
  mainWindow : option BrowserWin;     (* windowHandler.getMainWindow() *)
  focusedWindow : option bool;        (* [Some d]: present, isDestroyed() = d *)
  appMenu : bool;                     (* windowHandler.appMenu is set *)
  bringToFrontEnabled : bool;         (* config value is CloudConfigDataTypes.ENABLED *)
  globalConfigURL : value;            (* config.getGlobalConfigFields(['url']).url *)
  urlFromCmd : option string;         (* getCommandLineArgs(process.argv, '--url=', false) *)
  windowByName : value -> option BrowserWin  (* getWindowByName *)
}.

#[warnings="-register-all"]
Inductive reply :=
| Undefined
| Value (v : value)
| ResultOf (fn : string) (args : list value)   (* what a collaborator returns *)
| Fields (fs : list (string * reply)).

Inductive effect :=
| LogInfo (text : string) (args : list value)
| LogError (text : string) (args : list value)
| LogApiCall (apiCmd : value) (properties : value)
    (* logger.info(`main-api-handler: - ${apiCmd} - Properties:
       ${JSON.stringify(properties, null, 2)}`) *)
| Call (fn : string) (args : list value)
| ReturnValue (v : value)                       (* event.returnValue = v *)
| Fetch (url : string) (proxyLogin : bool)
| NewCredentialsPromise (p : nat)
| ResolveCredentials (p : nat)                  (* resolutionCallback(true) *)
| CreateBasicAuthWindow (hostname : value) (isFirst : bool)
| OpenExternal (url : string)
| SetMainWindowOrigin (url : string)
| LoadURL (url : string).

Inductive outcome :=
| Completed
| Raised (error : string).

Record ProxyDetails := {
  username : value;
  password : value;
  hostname : value;
  retries : Z
}.

(** The module-level variables of the login flow. *)
Record Login := {
  proxyDetails : ProxyDetails;
  loginUrl : string;
  formattedPodUrl : string;
  credentialsPromise : option nat;
  resolutionCallback : option nat;    (* credentialsPromiseRefHolder.resolutionCallback *)
  promises : list bool;               (* each promise made so far: resolved? *)
  probes : list (option bool)         (* each fetch: [Some proxyLogin] while in flight *)
}.

(** The properties of [windowHandler] that handlers assign. *)
Record Flags := {
  wh_isOnline : bool;
  wh_isWebPageLoading : bool;
  wh_isLoggedIn : bool;
  wh_isMana : bool
}.

Record State := {
  login : Login;
  flags : Flags;
  userConfig : list (string * value); (* the stored user configuration *)
  windows : gset nat;                 (* windows the host created and tracks *)
  views : gset nat;                   (* views the host created and tracks *)
  effects : list effect
}.

Definition emit (ev : effect) (st : State) : State :=
  {| login := login st; flags := flags st; userConfig := userConfig st;
     windows := windows st; views := views st;
     effects := effects st ++ [ev] |}.

Definition emits (evs : list effect) (st : State) : State :=
  foldl (fun s ev => emit ev s) st evs.

Definition set_login (l : Login) (st : State) : State :=
  {| login := l; flags := flags st; userConfig := userConfig st;
     windows := windows st; views := views st; effects := effects st |}.

Definition set_flags (f : Flags) (st : State) : State :=
  {| login := login st; flags := f; userConfig := userConfig st;
     windows := windows st; views := views st; effects := effects st |}.

Definition set_userConfig (c : list (string * value)) (st : State) : State :=
  {| login := login st; flags := flags st; userConfig := c;
     windows := windows st; views := views st; effects := effects st |}.

Definition init_login : Login :=
  {| proxyDetails :=
       {| username := VStr EmptyString; password := VStr EmptyString;
          hostname := VStr EmptyString; retries := 0 |};
     loginUrl := EmptyString; formattedPodUrl := EmptyString;
     credentialsPromise := None;
     resolutionCallback := None; promises := []; probes := [] |}.

Definition hidden : value := VStr "hidden".

Definition AUTH_STATUS_PATH : string := "/login/checkauth?type=user".

Definition getBrowserLoginUrl (pod : string) : string :=
  pod +:+ "/login/sso/initsso?RelayState=" +:+ pod +:+
  "/client-bff/device-login/index.html?callbackScheme=symphony&action=login".

(** Modelled from the spec: [isValidWindow] and [isValidView] of
    window-utils, whose source is not part of this unit.  A window or view
    is valid iff the host process created it and still tracks it. *)
Definition isValidWindow (st : State) (w : option nat) : bool :=
  match w with
  | Some id => bool_decide (id ∈ windows st)
  | None => false
  end.

Definition isValidView (st : State) (wc : nat) : bool :=
  bool_decide (wc ∈ views st).

Definition valid_sender (st : State) (ctx : Ctx) : bool :=
  isValidWindow st (senderWindowId ctx) || isValidView st (sender ctx).

(** *** The pod login flow *)

Definition set_proxyDetails (p : ProxyDetails) (l : Login) : Login :=
  {| proxyDetails := p; loginUrl := loginUrl l;
     formattedPodUrl := formattedPodUrl l;
     credentialsPromise := credentialsPromise l;
     resolutionCallback := resolutionCallback l; promises := promises l;
     probes := probes l |}.

Definition set_urls (login_url pod_url : string) (l : Login) : Login :=
  {| proxyDetails := proxyDetails l; loginUrl := login_url;
     formattedPodUrl := pod_url;
     credentialsPromise := credentialsPromise l;
     resolutionCallback := resolutionCallback l; promises := promises l;
     probes := probes l |}.

Definition set_promises (cp rc : option nat) (ps : list bool) (l : Login)
  : Login :=
  {| proxyDetails := proxyDetails l; loginUrl := loginUrl l;
     formattedPodUrl := formattedPodUrl l; credentialsPromise := cp;
     resolutionCallback := rc; promises := ps; probes := probes l |}.

Definition set_probes (ps : list (option bool)) (l : Login) : Login :=
  {| proxyDetails := proxyDetails l; loginUrl := loginUrl l;
     formattedPodUrl := formattedPodUrl l;
     credentialsPromise := credentialsPromise l;
     resolutionCallback := resolutionCallback l; promises := promises l;
     probes := ps |}.

(** [loadPodUrl(proxyLogin)]: the probe is issued; its [then] and [catch]
    handlers run from [probe_response] and [probe_failure]. *)
Definition loadPodUrl (proxyLogin : bool) (st : State) : State :=
  let st1 := emit (LogInfo "loading pod URL. Proxy: " [VBool proxyLogin]) st in
  let l := login st1 in
  emit (Fetch (formattedPodUrl l +:+ AUTH_STATUS_PATH) proxyLogin)
    (set_login (set_probes (probes l ++ [Some proxyLogin]) l) st1).

(** the [onLogin] hook of a probe issued with [proxyLogin]: the proxy
    asks for credentials *)
Definition onLogin (host realm : value) (st : State) : State :=
  let l := login st in
  let p := proxyDetails l in
  set_login
    (set_proxyDetails
       {| username := username p; password := password p;
          hostname := if truthy host then host else realm;
          retries := retries p |} l) st.


(* the [then] handler, for a body that parsed as JSON *)
Definition on_response (ctx : Ctx) (authResponse : value) (st : State)
  : State :=
  let st1 := emit (LogInfo "main-api-handler: check auth response" [authResponse]) st in
  let l := login st1 in
  if is_str "sso" (prop "authenticationType" authResponse) then
    emits [ LogInfo "main-api-handler: browser login is enabled - logging in"
              [VStr (loginUrl l)];
            OpenExternal (loginUrl l) ] st1
  else
    let st2 :=
      emit (LogInfo
              "main-api-handler: browser login is not enabled - loading main window with"
              [VStr (formattedPodUrl l)]) st1 in
    match mainWebContents ctx with
    | Some false =>
        emits [ SetMainWindowOrigin (formattedPodUrl l);
                LoadURL (formattedPodUrl l) ] st2
    | _ => st2
    end.

Record FetchError := {
  err_type : value;                   (* error.type *)
  err_code : value                    (* error.code *)
}.

Definition needs_credentials (proxyLogin : bool) (error : FetchError) : bool :=
  (is_str "proxy" (err_type error) && is_str "PROXY_AUTH_FAILED" (err_code error))
  || (is_str "ERR_TOO_MANY_RETRIES" (err_code error) && proxyLogin).

(* the [catch] handler of a probe issued with [proxyLogin] *)
Definition on_failure (proxyLogin : bool) (error : FetchError) (st : State)
  : State :=
  if needs_credentials proxyLogin error then
    let l := login st in
    let p := length (promises l) in
    let st1 :=
      emit (NewCredentialsPromise p)
        (set_login (set_promises (Some p) (Some p) (promises l ++ [false]) l) st) in
    let d := proxyDetails (login st1) in
    let st2 := emit (CreateBasicAuthWindow (hostname d) (retries d =? 0)) st1 in
    set_login
      (set_proxyDetails
         {| username := username d; password := password d;
            hostname := hostname d; retries := retries d + 1 |}
         (login st2)) st2
  else st.

(* the callback handed to [createBasicAuthWindow] *)
Definition on_credentials (user pass : value) (st : State) : State :=
  let l := login st in
  let d := proxyDetails l in
  let l1 := set_proxyDetails
              {| username := user; password := pass; hostname := hostname d;
                 retries := retries d |} l in
  let st1 := set_login l1 st in
  match resolutionCallback l1 with
  | Some p =>
      loadPodUrl true
        (emit (ResolveCredentials p)
           (set_login
              (set_promises (credentialsPromise l1) (resolutionCallback l1)
                 (<[p := true]> (promises l1)) l1) st1))
  | None => st1          (* calling [undefined] raises; no prompt gets here *)
  end.

(** The probe number [i] settles: with a response whose body parsed to
    [body], or with an error. *)
Inductive probe_result :=
| Responded (body : value)
| Failed (error : FetchError).

Definition probe_settles (ctx : Ctx) (i : nat) (r : probe_result) (st : State)
  : State :=
  match probes (login st) !! i with
  | Some (Some proxyLogin) =>
      let st1 := set_login (set_probes (<[i := None]> (probes (login st)))
                              (login st)) st in
      match r with
      | Responded body => on_response ctx body st1
      | Failed error => on_failure proxyLogin error st1
      end
  | _ => st
  end.

(** *** The two dispatchers

    [api-interface.ts] declares [apiCmds] as a string enum and the window
    names in [apiName]; neither file is part of this unit, so the member
    values are parameters, and so are [parseDomain] of the whitelist handler
    and the keys of [AutoUpdateTrigger]. *)
Section Dispatch.

Variable tag : apiCmds.t -> string.
Variable mainWindowName welcomeScreenName : string.
Variable parseDomain : value -> option ParsedDomain.   (* [None]: it throws *)
Variable inAutoUpdateTrigger : value -> bool.

(* [switch (v)]: the first label that is strictly equal to [v] *)
Definition switch_on (cases : list apiCmds.t) (v : value) : option apiCmds.t :=
  List.find (fun c => is_str (tag c) v) cases.

Definition typeof_is (t : jstype) (v : value) : bool := jstype_eqb (typeof v) t.

Definition redact_source (source : value) : option value :=
  if nullish source then None          (* [source.name] raises *)
  else Some (VObj [ ("name", prop "name" source); ("id", prop "id" source);
                    ("thumbnail", hidden);
                    ("display_id", prop "display_id" source);
                    ("appIcon", prop "appIcon" source) ]).

Fixpoint redact_sources (xs : list value) : option (list value) :=
  match xs with
  | [] => Some []
  | x :: xs' =>
      match redact_source x, redact_sources xs' with
      | Some r, Some rs => Some (r :: rs)
      | _, _ => None
      end
  end.

(* [arg.sources.map(...)]: arrays and typed arrays have [map]; a typed
   array stores the objects the callback returns as zeros *)
Definition map_sources (sources : value) : option value :=
  match sources with
  | VArr xs => VArr <$> redact_sources xs
  | VBytes bs => Some (VBytes (map (fun _ => x00) bs))
  | _ => None
  end.

Definition notification_record (notificationOpts : value) : value :=
  VObj (set_prop "data" hidden (set_prop "body" hidden
          (set_prop "title" hidden (own_props notificationOpts)))).

(** [logApiCallParams(arg)]: the record handed to the logger, or [None]
    when building it raises. *)
Definition logApiCallParams (arg : value) : option effect :=
  let apiCmd := prop "cmd" arg in
  match switch_on apiCmds.log_cases apiCmd with
  | Some apiCmds.showNotification =>
      Some (LogApiCall apiCmd (notification_record (prop "notificationOpts" arg)))
  | Some apiCmds.badgeDataUrl =>
      Some (LogApiCall apiCmd (VObj (set_prop "dataUrl" hidden (own_props arg))))
  | Some apiCmds.openScreenPickerWindow =>
      match map_sources (prop "sources" arg) with
      | Some sources =>
          Some (LogApiCall apiCmd (VObj (set_prop "sources" sources (own_props arg))))
      | None => None
      end
  | Some apiCmds.sendLogs =>
      Some (LogApiCall apiCmd
              (VObj (set_prop "logFiles" hidden (own_props (prop "logs" arg)))))
  | Some apiCmds.writeCloud9Pipe =>
      match buffer_from (prop "data" arg) with
      | Some bytes =>
          Some (LogApiCall apiCmd
                  (VObj (set_prop "data" (VStr (Base64.encode bytes))
                           (own_props arg))))
      | None => None
      end
  | _ => Some (LogApiCall apiCmd arg)
  end.

Definition focus_main (ctx : Ctx) (st : State) : State :=
  match mainWebContents ctx with
  | Some false => emit (Call "mainWebContents.focus" []) st
  | _ => st
  end.

(* [windowHandler.getMainWindow()?.method(args)] *)
Definition main_window_call (ctx : Ctx) (method : string) (args : list value)
    (st : State) : State :=
  match mainWindow ctx with
  | Some _ => emit (Call ("mainWindow." +:+ method) args) st
  | None => st
  end.

Fixpoint drop_chars (n : nat) (s : string) : string :=
  match n, s with
  | S n', String _ s' => drop_chars n' s'
  | _, _ => s
  end.

(* the address the login flow starts from *)
Definition podUrl (ctx : Ctx) (userURL : value) : value :=
  match urlFromCmd ctx with
  | Some u =>
      if is_empty_string u then
        if truthy userURL then userURL else globalConfigURL ctx
      else VStr (drop_chars 6 u)
  | None =>
      if truthy userURL then userURL else globalConfigURL ctx
  end.

Definition formatPodUrl (d : ParsedDomain) : string :=
  "https://" +:+ subdomain d +:+ "." +:+ domain d +:+ tld d.

(** Modelled from the spec: [config.updateUserConfig], whose source is
    not part of this unit, stores the given fields in the user
    configuration that [config.getUserConfigFields] reads. *)
Definition updateUserConfig (k : string) (v : value) (st : State) : State :=
  set_userConfig (set_prop k v (userConfig st)) st.

(* the two [await config.updateUserConfig(...)] of the browserLogin case *)
Definition login_config (arg : value) (st : State) : State :=
  let st1 := updateUserConfig "browserLoginAutoConnect"
               (prop "browserLoginAutoConnect" arg) st in
  if truthy (prop "isPodConfigured" arg) then st1
  else updateUserConfig "url" (prop "newPodUrl" arg) st1.

(* [config.getUserConfigFields(['url']).url] *)
Definition userConfigURL (st : State) : value :=
  default VUndef (assoc "url" (userConfig st)).

Definition browserLogin (ctx : Ctx) (arg : value) (st : State)
  : outcome * State :=
  let st2 := login_config arg st in
  match parseDomain (podUrl ctx (userConfigURL st2)) with
  | None => (Raised "parseDomain", st2)
  | Some d =>
      let pod := formatPodUrl d in
      let st3 := set_login (set_urls (getBrowserLoginUrl pod) pod (login st2)) st2 in
      (Completed,
       loadPodUrl false
         (emit (LogInfo "main-api-handler:"
                  [VStr "check if sso is enabled for the pod"; VStr pod]) st3))
  end.

(* [swiftSearchInstance]: the constructor is taken from an empty object,
   so [new SSAPIBridge()] raises and the variable stays undefined *)
Definition swiftSearchInstance : bool := false.

Definition set_isOnline (b : bool) (f : Flags) : Flags :=
  {| wh_isOnline := b; wh_isWebPageLoading := wh_isWebPageLoading f;
     wh_isLoggedIn := wh_isLoggedIn f; wh_isMana := wh_isMana f |}.

Definition set_loading (loading loggedIn : bool) (f : Flags) : Flags :=
  {| wh_isOnline := wh_isOnline f; wh_isWebPageLoading := loading;
     wh_isLoggedIn := loggedIn; wh_isMana := wh_isMana f |}.

Definition set_isMana (b : bool) (f : Flags) : Flags :=
  {| wh_isOnline := wh_isOnline f; wh_isWebPageLoading := wh_isWebPageLoading f;
     wh_isLoggedIn := wh_isLoggedIn f; wh_isMana := b |}.

Definition when (b : bool) (f : State -> State) (st : State) : State :=
  if b then f st else st.

(** the body of one [case] of the [ipcMain.on] switch *)
Definition on_case (c : apiCmds.t) (ctx : Ctx) (arg : value) (st : State)
  : outcome * State :=
  let me := VHandle (sender ctx) in
  let done (s : State) := (Completed, s) in
  match c with
  | apiCmds.isOnline =>
      done (match prop "isOnline" arg with
            | VBool b => set_flags (set_isOnline b (flags st)) st
            | _ => st
            end)
  | apiCmds.setBadgeCount =>
      let count := prop "count" arg in
      done (when (typeof_is TNumber count)
              (emits [ Call "showBadgeCount" [count];
                       Call "presenceStatusStore.setNotificationCount" [count];
                       LogInfo "main-api-handler: show and update count: " [count] ])
              st)
  | apiCmds.registerProtocolHandler =>
      let st1 := emits [ Call "protocolHandler.setPreloadWebContents" [me];
                         Call "windowHandler.updateVersionInfo" [] ] st in
      done (set_flags (set_loading false true (flags st1)) st1)
  | apiCmds.registerLogRetriever =>
      done (emit (Call "registerLogRetriever" [me; prop "logName" arg]) st)
  | apiCmds.sendLogs =>
      done (emit (Call "finalizeLogExports" [prop "logs" arg]) st)
  | apiCmds.badgeDataUrl =>
      let dataUrl := prop "dataUrl" arg in
      let count := prop "count" arg in
      done (when (typeof_is TString dataUrl)
              (when (match count with VNum n => 0 <? n | _ => false end)
                 (emits [ Call "setDataUrl" [dataUrl; count];
                          LogInfo "main-api-handler: set badge count: " [count] ]))
              st)
  | apiCmds.activate =>
      let windowName := prop "windowName" arg in
      done (when (typeof_is TString windowName)
              (emit (Call "activate" [windowName])) st)
  | apiCmds.registerLogger =>
      done (emit (Call "logger.setLoggerWindow" [me]) st)
  | apiCmds.registerActivityDetection =>
      let period := prop "period" arg in
      done (when (typeof_is TNumber period)
              (emit (Call "activityDetection.setWindowAndThreshold" [me; period]))
              st)
  | apiCmds.registerDownloadHandler =>
      done (emit (Call "downloadHandler.setWindow" [me]) st)
  | apiCmds.showNotificationSettings =>
      let windowName := prop "windowName" arg in
      let theme := if truthy (prop "theme" arg) then prop "theme" arg
                   else VStr "light" in
      done (when (typeof_is TString windowName)
              (emit (Call "windowHandler.createNotificationSettingsWindow"
                       [windowName; theme])) st)
  | apiCmds.sanitize =>
      let windowName := prop "windowName" arg in
      let st1 := when (typeof_is TString windowName)
                   (emit (Call "sanitize" [windowName])) st in
      done (set_flags (set_loading true (wh_isLoggedIn (flags st1)) (flags st1)) st1)
  | apiCmds.bringToFront =>
      done (when (is_str "notification" (prop "reason" arg)
                  && bringToFrontEnabled ctx)
              (emit (Call "activate" [prop "windowName" arg; VBool false])) st)
  | apiCmds.openScreenPickerWindow =>
      let sources := prop "sources" arg in
      let id := prop "id" arg in
      done (when (isArray sources && typeof_is TNumber id)
              (emit (Call "windowHandler.createScreenPickerWindow"
                       [me; sources; id])) st)
  | apiCmds.popupMenu =>
      done (match senderWindow ctx with
            | Some w =>
                when (winExists w
                      && (String.eqb (winName w) mainWindowName
                          || String.eqb (winName w) welcomeScreenName))
                  (fun s => focus_main ctx (emit (Call "showPopupMenu" []) s))
                  st
            | None => st
            end)
  | apiCmds.setLocale =>
      let locale := prop "locale" arg in
      done (when (typeof_is TString locale)
              (emit (Call "updateLocale" [locale])) st)
  | apiCmds.keyPress =>
      let keyCode := prop "keyCode" arg in
      done (when (typeof_is TNumber keyCode)
              (emit (Call "handleKeyPress" [keyCode])) st)
  | apiCmds.getMyPresence =>
      done (emits [ Call "presenceStatus.setMyPresence" [prop "status" arg];
                    LogInfo "main-api-handler: get presence from C2 to set in SDA" [] ]
              st)
  | apiCmds.openScreenSnippet =>
      done (emit (Call "screenSnippet.capture" [me; prop "hideOnCapture" arg]) st)
  | apiCmds.closeScreenSnippet =>
      done (emit (Call "screenSnippet.cancelCapture" []) st)
  | apiCmds.closeWindow =>
      done (emit (Call "windowHandler.closeWindow"
                    [prop "windowType" arg; prop "winKey" arg]) st)
  | apiCmds.openScreenSharingIndicator =>
      let displayId := prop "displayId" arg in
      let id := prop "id" arg in
      done (when (typeof_is TString displayId && typeof_is TNumber id)
              (emit (Call "windowHandler.createScreenSharingIndicatorWindow"
                       [me; displayId; id; prop "streamId" arg])) st)
  | apiCmds.downloadManagerAction =>
      done (when (typeof_is TString (prop "path" arg))
              (emit (Call "downloadManagerAction"
                       [prop "type" arg; prop "path" arg])) st)
  | apiCmds.openDownloadedItem =>
      done (when (typeof_is TString (prop "id" arg))
              (emit (Call "downloadHandler.openFile" [prop "id" arg])) st)
  | apiCmds.showDownloadedItem =>
      done (when (typeof_is TString (prop "id" arg))
              (emit (Call "downloadHandler.showInFinder" [prop "id" arg])) st)
  | apiCmds.clearDownloadedItems =>
      done (emit (Call "downloadHandler.clearDownloadedItems" []) st)
  | apiCmds.restartApp =>
      done (emit (Call "appStateHandler.restart" []) st)
  | apiCmds.setIsInMeeting =>
      done (match prop "isInMeeting" arg with
            | VBool b =>
                let st1 :=
                  emits [ Call "memoryMonitor.setMeetingStatus" [VBool b];
                          Call "appStateHandler.preventDisplaySleep" [VBool b] ]
                    st in
                when (negb b)
                  (emits [ Call "windowHandler.closeScreenPickerWindow" [];
                           Call "windowHandler.closeScreenSharingIndicator" [] ])
                  st1
            | _ => st
            end)
  | apiCmds.memoryInfo =>
      done (when (typeof_is TObject (prop "memoryInfo" arg))
              (emit (Call "memoryMonitor.setMemoryInfo" [prop "memoryInfo" arg]))
              st)
  | apiCmds.getConfigUrl =>
      done (emit (ReturnValue (globalConfigURL ctx)) st)
  | apiCmds.registerAnalyticsHandler =>
      done (emit (Call "analytics.registerPreloadWindow" [me]) st)
  | apiCmds.setCloudConfig =>
      let st1 := emit (Call "updateFeaturesForCloudConfig"
                         [prop "cloudConfig" arg]) st in
      done (when (appMenu ctx) (emit (Call "appMenu.buildMenu" [])) st1)
  | apiCmds.setIsMana =>
      done (match prop "isMana" arg with
            | VBool b =>
                let st1 := set_flags (set_isMana b (flags st)) st in
                let st2 :=
                  match mainWebContents ctx with
                  | Some _ =>
                      (* the buttons passed on are those just created *)
                      emit (LogInfo "main-api-handler: Add actions preview menu" [])
                        (main_window_call ctx "setThumbarButtons" []
                           (emits
                              [ Call "presenceStatus.createThumbarButtons" [];
                                Call "presenceStatus.updateSystemTrayPresence" [] ]
                              st1))
                  | None => st1
                  end in
                emit (LogInfo "main-api-handler: isMana: " [VBool b])
                  (when (appMenu ctx && b)
                     (emit (Call "appMenu.buildMenu" [])) st2)
            | _ => st
            end)
  | apiCmds.showNotification =>
      let opts := prop "notificationOpts" arg in
      done (when (typeof_is TObject opts)
              (emit (Call "notificationHelper.showNotification" [opts])) st)
  | apiCmds.closeNotification =>
      let id := prop "notificationId" arg in
      done (when (typeof_is TNumber id)
              (emit (Call "notificationHelper.closeNotification" [id])) st)
  | apiCmds.closeAllWrapperWindows =>
      done (emit (Call "presenceStatus.onSignOut" [])
              (main_window_call ctx "setThumbarButtons" [VArr []]
                 (emits [ Call "windowHandler.closeAllWindows" [];
                          Call "terminateC9Shell" [] ] st)))
  | apiCmds.setZoomLevel =>
      let zoomLevel := prop "zoomLevel" arg in
      done (when (typeof_is TNumber zoomLevel)
              (match mainWebContents ctx with
               | Some false =>
                   emit (Call "mainWebContents.setZoomFactor" [zoomLevel])
               | _ => fun s => s
               end) st)
  | apiCmds.aboutAppClipBoardData =>
      let clipboard := prop "clipboard" arg in
      let clipboardType := prop "clipboardType" arg in
      done (when (truthy clipboard && truthy clipboardType)
              (emit (Call "clipboard.write" [clipboard; clipboardType])) st)
  | apiCmds.closeMainWindow =>
      done (main_window_call ctx "close" [] (focus_main ctx st))
  | apiCmds.minimizeMainWindow =>
      done (main_window_call ctx "minimize" [] (focus_main ctx st))
  | apiCmds.maximizeMainWindow =>
      done (focus_main ctx (main_window_call ctx "maximize" [] st))
  | apiCmds.unmaximizeMainWindow =>
      let st1 :=
        match mainWindow ctx with
        | Some w =>
            if winExists w then
              if isFullScreen w then
                emit (Call "mainWindow.setFullScreen" [VBool false]) st
              else
                emits [ Call "mainWindow.unmaximize" [];
                        Call "setTimeout(windowHandler.forceUnmaximize)" [VNum 100] ]
                  st
            else st
        | None => st
        end in
      done (focus_main ctx st1)
  | apiCmds.browserLogin => browserLogin ctx arg st
  | apiCmds.setBroadcastMessage =>
      done (when swiftSearchInstance
              (emits [ Call "mainEvents.subscribe" [VStr (tag apiCmds.onSwiftSearchMessage); me];
                       Call "swiftSearchInstance.setBroadcastMessage" [] ]) st)
  | apiCmds.handleSwiftSearchMessageEvents =>
      done (when swiftSearchInstance
              (emit (Call "swiftSearchInstance.handleMessageEvents"
                       [prop "swiftSearchData" arg])) st)
  | apiCmds.connectCloud9Pipe =>
      done (emit (Call "connectC9Pipe" [me; prop "pipe" arg]) st)
  | apiCmds.writeCloud9Pipe =>
      done (emit (Call "writeC9Pipe" [prop "data" arg]) st)
  | apiCmds.closeCloud9Pipe =>
      done (emit (Call "closeC9Pipe" []) st)
  | apiCmds.launchCloud9 =>
      done (emit (Call "loadC9Shell" [me]) st)
  | apiCmds.terminateCloud9 =>
      done (emit (Call "terminateC9Shell" []) st)
  | apiCmds.updateAndRestart =>
      done (emit (Call "autoUpdate.updateAndRestart" []) st)
  | apiCmds.downloadUpdate =>
      done (emit (Call "autoUpdate.downloadUpdate" []) st)
  | apiCmds.checkForUpdates =>
      let trigger := prop "autoUpdateTrigger" arg in
      done (if truthy trigger && inAutoUpdateTrigger trigger then
              emit (Call "autoUpdate.checkUpdates" [trigger]) st
            else emit (Call "autoUpdate.checkUpdates" []) st)
  | _ => done st                       (* not a label of this switch *)
  end.

Definition invalid_window_text : string :=
  "main-api-handler: invalid window try to perform action, ignoring action".

(** The listener of [ipcMain.on(apiName.symphonyApi, ...)]. *)
Definition on_message (ctx : Ctx) (arg : value) (st : State)
  : outcome * State :=
  if negb (valid_sender st ctx) then
    if nullish arg then
      (* [arg.cmd] is evaluated for the log call before [!arg] is tested *)
      (Raised "TypeError: Cannot read properties of undefined (reading 'cmd')", st)
    else (Completed, emit (LogError invalid_window_text [prop "cmd" arg]) st)
  else if negb (truthy arg) then
    (Completed,
     emit (LogError "main-api-handler: no args received. Unable to handle API call." [])
       st)
  else
    match logApiCallParams arg with
    | None => (Raised "TypeError", st)
    | Some record =>
        let st1 := emit record st in
        match switch_on apiCmds.on_cases (prop "cmd" arg) with
        | Some c => on_case c ctx arg st1
        | None => (Completed, st1)     (* default: break *)
        end
    end.

(** the body of one [case] of the [ipcMain.handle] switch *)
Definition handle_case (c : apiCmds.t) (ctx : Ctx) (arg : value) (st : State)
  : reply * State :=
  match c with
  | apiCmds.getCurrentOriginUrl =>
      (match mainWindow ctx with
       | Some w => Value (origin w)
       | None => Undefined
       end, st)
  | apiCmds.isAeroGlassEnabled =>
      (ResultOf "systemPreferences.isAeroGlassEnabled" [], st)
  | apiCmds.showScreenSharePermissionDialog =>
      (Undefined,
       match focusedWindow ctx with
       | Some false =>
           emit (Call "dialog.showMessageBox"
                   [ VStr "Your administrator has disabled sharing your screen. Please contact your admin for help";
                     VStr "Permission Denied"; VStr "error" ]) st
       | _ => st
       end)
  | apiCmds.getMediaAccessStatus =>
      (Fields
         [ ("camera", ResultOf "systemPreferences.getMediaAccessStatus" [VStr "camera"]);
           ("microphone", ResultOf "systemPreferences.getMediaAccessStatus" [VStr "microphone"]);
           ("screen", ResultOf "systemPreferences.getMediaAccessStatus" [VStr "screen"]) ],
       st)
  | apiCmds.getSources =>
      (ResultOf "desktopCapturer.getSources"
         [VObj [ ("types", prop "types" arg);
                 ("thumbnailSize", prop "thumbnailSize" arg) ]], st)
  | apiCmds.getNativeWindowHandle =>
      (match windowByName ctx (prop "windowName" arg) with
       | Some w =>
           if winExists w then
             ResultOf "getContentWindowHandle" [prop "windowName" arg]
           else Undefined
       | None => Undefined
       end, st)
  | apiCmds.getCitrixMediaRedirectionStatus =>
      (ResultOf "getCitrixMediaRedirectionStatus" [], st)
  | _ => (Undefined, st)               (* not a label of this switch *)
  end.

(** The handler of [ipcMain.handle(apiName.symphonyApi, ...)]: what the
    invoking renderer gets back, or the error its promise is rejected
    with. *)
Definition handle_message (ctx : Ctx) (arg : value) (st : State)
  : outcome * reply * State :=
  if negb (valid_sender st ctx) then
    if nullish arg then
      (Raised "TypeError: Cannot read properties of undefined (reading 'cmd')",
       Undefined, st)
    else (Completed, Undefined,
          emit (LogError invalid_window_text [prop "cmd" arg]) st)
  else if negb (truthy arg) then (Completed, Undefined, st)
  else
    match switch_on apiCmds.handle_cases (prop "cmd" arg) with
    | Some c => let '(r, st1) := handle_case c ctx arg st in (Completed, r, st1)
    | None => (Completed, Undefined, st)     (* default: break *)
    end.

End Dispatch.

(** *** Vocabulary for the statements *)


(* two property lists with the same keys in the same order whose values
   may differ under the keys in [ks] only *)
Definition agree_except (ks : list string) (fs gs : list (string * value))
  : Prop :=
  Forall2 (fun x y => x.1 = y.1 /\ (In x.1 ks \/ x.2 = y.2)) fs gs.


(** *** Sample data to run the handlers on *)

Definition init (ws vs : gset nat) : State :=
  {| login := init_login;
     flags := {| wh_isOnline := true; wh_isWebPageLoading := true;
                 wh_isLoggedIn := false; wh_isMana := false |};
     userConfig := []; windows := ws; views := vs; effects := [] |}.

Fixpoint split_dots (s : string) (acc : string) : list string :=
  match s with
  | EmptyString => [acc]
  | String c s' =>
      if Ascii.eqb c "." then acc :: split_dots s' EmptyString
      else split_dots s' (acc +:+ String c EmptyString)
  end.

Fixpoint join_dots (parts : list string) : string :=
  match parts with
  | [] => EmptyString
  | [x] => x
  | x :: rest => x +:+ "." +:+ join_dots rest
  end.

(* a parser in the way of [whitelistHandler.parseDomain]: the last label
   is the top-level domain, the one before it the domain *)
Definition labels_parseDomain (v : value) : option ParsedDomain :=
  match v with
  | VStr s =>
      match rev (split_dots s EmptyString) with
      | t :: d :: rest =>
          Some {| subdomain := join_dots (rev rest); domain := d;
                  tld := "." +:+ t |}
      | _ => None
      end
  | _ => None
  end.

(* a message from the main window, which the host tracks as window 1 *)
Definition main_ctx : Ctx :=
  {| sender := 10; senderWindowId := Some 1%nat;
     senderWindow := Some {| winName := "main"; winExists := true;
                             isFullScreen := false;
                             origin := VStr "https://acme.symphony.com" |};
     mainWebContents := Some false;
     mainWindow := Some {| winName := "main"; winExists := true;
                           isFullScreen := false;
                           origin := VStr "https://acme.symphony.com" |};
     focusedWindow := Some false; appMenu := true;
     bringToFrontEnabled := true;
     globalConfigURL := VStr "https://corporate.symphony.com";
     urlFromCmd := Some "--url=acme.symphony.com";
     windowByName := fun _ => None |}.


(* a message from web contents the host never created *)
Definition stranger_ctx : Ctx :=
  {| sender := 66; senderWindowId := Some 99%nat; senderWindow := None;
     mainWebContents := Some false; mainWindow := None;
     focusedWindow := None; appMenu := false; bringToFrontEnabled := false;
     globalConfigURL := VUndef; urlFromCmd := None;
     windowByName := fun _ => None |}.

Definition proxy_auth_failed : FetchError :=
  {| err_type := VStr "proxy"; err_code := VStr "PROXY_AUTH_FAILED" |}.

Definition message (c : apiCmds.t) (fields : list (string * value)) : value :=
  VObj (("cmd", VStr (apiCmds.name c)) :: fields).


(** *** Further vocabulary: the login flow as a run of events *)

Inductive login_event :=
| LoadPodUrl (proxyLogin : bool)                 (* a call of [loadPodUrl] *)
| ProbeSettles (ctx : Ctx) (i : nat) (r : probe_result)
| Credentials (user pass : value)                (* the prompt's callback *)
| ProxyAsks (host realm : value).                (* the [onLogin] hook *)

Definition login_step (ev : login_event) (st : State) : State :=
  match ev with
  | LoadPodUrl proxyLogin => loadPodUrl proxyLogin st
  | ProbeSettles ctx i r => probe_settles ctx i r st
  | Credentials user pass => on_credentials user pass st
  | ProxyAsks host realm => onLogin host realm st
  end.

Definition login_run (evs : list login_event) (st : State) : State :=
  foldl (fun s ev => login_step ev s) st evs.

Definition is_prompt (ev : effect) : bool :=
  match ev with CreateBasicAuthWindow _ _ => true | _ => false end.

(* a prompt worded as the first attempt *)
Definition is_first_prompt (ev : effect) : bool :=
  match ev with CreateBasicAuthWindow _ true => true | _ => false end.

(* the cases whose whole body sits behind a test of the fields it uses *)
Definition guarded_cases : list apiCmds.t :=
  [ apiCmds.isOnline; apiCmds.setBadgeCount; apiCmds.badgeDataUrl;
    apiCmds.activate; apiCmds.registerActivityDetection;
    apiCmds.showNotificationSettings; apiCmds.bringToFront;
    apiCmds.openScreenPickerWindow; apiCmds.setLocale; apiCmds.keyPress;
    apiCmds.openScreenSharingIndicator; apiCmds.downloadManagerAction;
    apiCmds.openDownloadedItem; apiCmds.showDownloadedItem;
    apiCmds.setIsInMeeting; apiCmds.memoryInfo; apiCmds.setIsMana;
    apiCmds.showNotification; apiCmds.closeNotification;
    apiCmds.setZoomLevel; apiCmds.aboutAppClipBoardData ].

(** From [st] to [st'] the variables of the login flow, the stored user
    configuration and the tracked windows and views are as they were, and
    the effects so far are still there, in order. *)
Definition only_adds_effects (st st' : State) : Prop :=
  login st' = login st /\ userConfig st' = userConfig st /\
  windows st' = windows st /\ views st' = views st /\
  exists evs, effects st' = effects st ++ evs.

(** The bookkeeping of the proxy prompts: the retry counter and the list
    of promises both count the prompts shown so far, the promise the login
    hook waits for is the one the prompt's callback resolves, and it is the
    newest one; the first prompt, and no other, is worded as a first
    attempt. *)
Definition login_consistent (st : State) : Prop :=
  let l := login st in
  let prompts := List.filter is_prompt (effects st) in
  retries (proxyDetails l) = Z.of_nat (length prompts) /\
  length (promises l) = length prompts /\
  credentialsPromise l = resolutionCallback l /\
  match credentialsPromise l with
  | Some p => S p = length (promises l)
  | None => promises l = []
  end /\
  List.filter is_first_prompt (effects st) = take 1 prompts.

End ApiHandler.

(** * Properties *)

(** ** Base64 *)
Module Base64Facts.

(** *** Bit operations as arithmetic *)

Lemma lor_shiftl_add (x y k : Z) :
  0 <= k -> 0 <= y < 2 ^ k -> Z.lor (Z.shiftl x k) y = x * 2 ^ k + y.
Proof.
  intros Hk Hy.
  rewrite <- Z.lxor_lor, <- Z.add_nocarry_lxor, Z.shiftl_mul_pow2; auto.
  all: apply Z.bits_inj'; intros i Hi; rewrite Z.land_spec, Z.bits_0.
  all: destruct (Z.lt_ge_cases i k) as [Hlt | Hge].
  all: try (rewrite Z.shiftl_spec_low by lia; reflexivity).
  all: replace y with (y mod 2 ^ k) by (apply Z.mod_small; lia).
  all: rewrite Z.mod_pow2_bits_high by lia; apply andb_false_r.
Qed.

Lemma land_ones_mod (x k : Z) :
  0 <= k -> Z.land x (2 ^ k - 1) = x mod 2 ^ k.
Proof.
  intros Hk. rewrite <- Z.land_ones by lia. f_equal.
  rewrite Z.ones_equiv. lia.
Qed.

Lemma group3_arith (a b c : Z) :
  0 <= a < 256 -> 0 <= b < 256 -> 0 <= c < 256 ->
  Base64.group3 a b c = a * 65536 + b * 256 + c.
Proof.
  intros Ha Hb Hc. unfold Base64.group3.
  rewrite (lor_shiftl_add b c 8) by lia.
  rewrite (lor_shiftl_add a _ 16) by lia.
  change (2 ^ 16) with 65536. change (2 ^ 8) with 256. lia.
Qed.

Lemma group4_arith (s0 s1 s2 s3 : Z) :
  0 <= s0 < 64 -> 0 <= s1 < 64 -> 0 <= s2 < 64 -> 0 <= s3 < 64 ->
  Base64.group4 s0 s1 s2 s3 = s0 * 262144 + s1 * 4096 + s2 * 64 + s3.
Proof.
  intros H0 H1 H2 H3. unfold Base64.group4.
  rewrite (lor_shiftl_add s2 s3 6) by lia.
  rewrite (lor_shiftl_add s1 _ 12) by lia.
  rewrite (lor_shiftl_add s0 _ 18) by lia.
  change (2 ^ 18) with 262144. change (2 ^ 12) with 4096.
  change (2 ^ 6) with 64. lia.
Qed.

Lemma sextet_arith (n i : Z) :
  0 <= i <= 3 -> Base64.sextet n i = (n / 2 ^ (18 - 6 * i)) mod 64.
Proof.
  intros Hi. unfold Base64.sextet.
  rewrite Z.shiftr_div_pow2 by lia.
  apply (land_ones_mod _ 6). lia.
Qed.

Lemma sextet_range (n i : Z) : 0 <= i <= 3 -> 0 <= Base64.sextet n i < 64.
Proof. intros Hi. rewrite sextet_arith by lia. apply Z.mod_pos_bound. lia. Qed.

Lemma byte_val_range (b : byte) : 0 <= Base64.byte_val b < 256.
Proof.
  unfold Base64.byte_val. pose proof (Byte.to_N_bounded b). lia.
Qed.

Lemma byte_of_val (b : byte) : Base64.byte_of (Base64.byte_val b) = Some b.
Proof.
  unfold Base64.byte_of, Base64.byte_val.
  rewrite N2Z.id. apply Byte.of_to_N.
Qed.

Lemma group4_sextets (n : Z) :
  0 <= n < 16777216 ->
  Base64.group4 (Base64.sextet n 0) (Base64.sextet n 1)
                (Base64.sextet n 2) (Base64.sextet n 3) = n.
Proof.
  intros Hn.
  rewrite group4_arith by (apply sextet_range; lia).
  rewrite !sextet_arith by lia. simpl Z.sub. 
  change (2 ^ (18 - 6 * 0)) with 262144. change (2 ^ (18 - 6 * 1)) with 4096.
  change (2 ^ (18 - 6 * 2)) with 64. change (2 ^ (18 - 6 * 3)) with 1.
  Z.div_mod_to_equations. lia.
Qed.

Lemma octet_arith (n i : Z) :
  0 <= i <= 2 ->
  Base64.octet n i = Base64.byte_of ((n / 2 ^ (16 - 8 * i)) mod 256).
Proof.
  intros Hi. unfold Base64.octet. f_equal.
  rewrite Z.shiftr_div_pow2 by lia.
  apply (land_ones_mod _ 8). lia.
Qed.

Lemma octets_group3 (a b c : byte) :
  let n := Base64.group3 (Base64.byte_val a) (Base64.byte_val b)
                         (Base64.byte_val c) in
  Base64.octet n 0 = Some a /\ Base64.octet n 1 = Some b /\
  Base64.octet n 2 = Some c.
Proof.
  intros n. subst n.
  pose proof (byte_val_range a) as Ha. pose proof (byte_val_range b) as Hb.
  pose proof (byte_val_range c) as Hc.
  rewrite group3_arith by assumption.
  rewrite !octet_arith by lia.
  change (2 ^ (16 - 8 * 0)) with 65536. change (2 ^ (16 - 8 * 1)) with 256.
  change (2 ^ (16 - 8 * 2)) with 1.
  repeat split.
  - rewrite <- (byte_of_val a). f_equal. Z.div_mod_to_equations. lia.
  - rewrite <- (byte_of_val b). f_equal. Z.div_mod_to_equations. lia.
  - rewrite <- (byte_of_val c). f_equal. Z.div_mod_to_equations. lia.
Qed.

Lemma group3_range (a b c : byte) :
  0 <= Base64.group3 (Base64.byte_val a) (Base64.byte_val b)
                     (Base64.byte_val c) < 16777216.
Proof.
  pose proof (byte_val_range a). pose proof (byte_val_range b).
  pose proof (byte_val_range c). rewrite group3_arith by assumption. lia.
Qed.

Lemma sextet3_zero (a b : Z) :
  0 <= a < 256 -> 0 <= b < 256 -> Base64.sextet (Base64.group3 a b 0) 3 = 0.
Proof.
  intros Ha Hb. rewrite group3_arith, sextet_arith by lia.
  change (2 ^ (18 - 6 * 3)) with 1. Z.div_mod_to_equations. lia.
Qed.

Lemma sextet2_zero (a : Z) :
  0 <= a < 256 -> Base64.sextet (Base64.group3 a 0 0) 2 = 0.
Proof.
  intros Ha. rewrite group3_arith, sextet_arith by lia.
  change (2 ^ (18 - 6 * 2)) with 64. Z.div_mod_to_equations. lia.
Qed.

(** *** The alphabet is a bijection between sextets and characters *)

Lemma dec_enc_char (s : Z) :
  0 <= s < 64 -> Base64.dec_char (Base64.enc_char s) = Some s.
Proof.
  intros Hs. rewrite <- (Z2Nat.id s) by lia.
  assert (Hn : (Z.to_nat s < 64)%nat) by lia.
  generalize dependent (Z.to_nat s). clear s Hs. intros n Hn.
  do 64 (destruct n as [|n]; [reflexivity|]). lia.
Qed.

Lemma enc_char_not_pad (s : Z) :
  0 <= s < 64 -> Ascii.eqb (Base64.enc_char s) Base64.pad = false.
Proof.
  intros Hs. rewrite <- (Z2Nat.id s) by lia.
  assert (Hn : (Z.to_nat s < 64)%nat) by lia.
  generalize dependent (Z.to_nat s). clear s Hs. intros n Hn.
  do 64 (destruct n as [|n]; [reflexivity|]). lia.
Qed.

(** Lists are consumed three bytes at a time. *)
Lemma list_ind3 {A} (P : list A -> Prop) :
  P [] -> (forall a, P [a]) -> (forall a b, P [a; b]) ->
  (forall a b c l, P l -> P (a :: b :: c :: l)) ->
  forall l, P l.
Proof.
  intros H0 H1 H2 H3.
  fix IH 1. intros [|a [|b [|c l]]];
    [exact H0 | apply H1 | apply H2 | apply H3, IH].
Qed.

Lemma decode_encode (bs : list byte) :
  Base64.decode (Base64.encode bs) = Some bs.
Proof.
  induction bs as [|a|a b|a b c l IH] using list_ind3.
  - reflexivity.
  - pose proof (byte_val_range a) as Ha.
    pose proof (group3_range a x00 x00) as Hn.
    pose proof (group4_sextets _ Hn) as Hg.
    destruct (octets_group3 a x00 x00) as (Ho & _).
    change (Base64.byte_val x00) with 0 in *.
    rewrite (sextet2_zero _ Ha), (sextet3_zero _ 0 Ha) in Hg by lia.
    cbn [Base64.encode Base64.decode].
    rewrite !dec_enc_char by (apply sextet_range; lia). cbn [mbind option_bind].
    rewrite Hg, Ho. reflexivity.
  - pose proof (byte_val_range a) as Ha. pose proof (byte_val_range b) as Hb.
    pose proof (group3_range a b x00) as Hn.
    pose proof (group4_sextets _ Hn) as Hg.
    change (Base64.byte_val x00) with 0 in *.
    rewrite (sextet3_zero _ _ Ha Hb) in Hg.
    destruct (octets_group3 a b x00) as (Ho0 & Ho1 & _).
    change (Base64.byte_val x00) with 0 in *.
    cbn [Base64.encode Base64.decode].
    rewrite !dec_enc_char by (apply sextet_range; lia). cbn [mbind option_bind].
    rewrite enc_char_not_pad by (apply sextet_range; lia).
    rewrite Hg, Ho0, Ho1. reflexivity.
  - pose proof (group3_range a b c) as Hn.
    pose proof (group4_sextets _ Hn) as Hg.
    destruct (octets_group3 a b c) as (Ho0 & Ho1 & Ho2).
    cbn [Base64.encode Base64.decode].
    rewrite !dec_enc_char by (apply sextet_range; lia). cbn [mbind option_bind].
    rewrite !enc_char_not_pad by (apply sextet_range; lia).
    rewrite Hg, Ho0, Ho1, Ho2, IH. reflexivity.
Qed.

End Base64Facts.

Module SessionFacts.
Import ScreenSnippet Base64Facts.

(** ** The screen-capture session *)

Lemma same_procs_refl st : same_procs st st.
Proof. repeat split. Qed.

Lemma same_procs_trans st1 st2 st3 :
  same_procs st1 st2 -> same_procs st2 st3 -> same_procs st1 st3.
Proof. unfold same_procs. intuition congruence. Qed.

Ltac unfold_session :=
  unfold upload_listener, capture_resolved, capture_rejected,
    convertFileToData, convertFileToData_finally, uploadSnippet,
    verifyAndUpdateAlwaysOnTop, updateAlwaysOnTop, deleteFile.

Lemma same_procs_verify st : same_procs st (verifyAndUpdateAlwaysOnTop st).
Proof. unfold_session. destruct (shouldUpdateAlwaysOnTop st); repeat split. Qed.

Lemma same_procs_run_cont e k killed st : same_procs st (run_cont e k killed st).
Proof.
  destruct k as [wc|], killed; cbn; unfold_session;
    repeat case_match; repeat split.
Qed.

Lemma same_procs_upload d st : same_procs st (on_upload_snippet d st).
Proof.
  unfold on_upload_snippet.
  assert (H : forall ls s, same_procs s (foldl (upload_listener d) s ls)).
  { induction ls as [|wc ls IH]; intros s; cbn; [apply same_procs_refl|].
    eapply same_procs_trans; [|apply IH].
    unfold_session. repeat case_match; repeat split. }
  eapply same_procs_trans; [|apply H]. repeat split.
Qed.



Lemma take_pending_In h pd k rest :
  take_pending h pd = Some (k, rest) -> forall x, In x rest -> In x pd.
Proof.
  revert k rest. induction pd as [|[h' k'] pd IH]; intros k rest; cbn.
  - discriminate.
  - destruct (Nat.eqb h h').
    + intros [= <- <-]. auto.
    + destruct (take_pending h pd) as [[k2 rest2]|]; [|discriminate].
      intros [= <- <-] x [<-|Hx]; [auto|]. right. eapply IH; eauto.
Qed.

Arguments output_path : simpl never.
Arguments capture_args : simpl never.

Lemma suspend_same_procs e st : same_procs st (suspend e st).
Proof.
  unfold suspend, updateAlwaysOnTop.
  repeat case_match; repeat split.
Qed.

Lemma suspend_fields e st :
  tempDir (suspend e st) = tempDir st /\ captureUtil (suspend e st) = captureUtil st /\
  isMana (suspend e st) = isMana st /\ files (suspend e st) = files st /\
  focused (suspend e st) = focused st.
Proof.
  unfold suspend, updateAlwaysOnTop. repeat case_match; repeat split.
Qed.

Lemma capture_procs e now wc st :
  procs (capture e now wc st)
  = match child st with
    | Some h => alter kill_status h (procs st)
    | None => procs st
    end ++ [PRunning]
  /\ child (capture e now wc st) = Some (length (procs st))
  /\ pending (capture e now wc st)
     = pending st ++ [(length (procs st), CaptureK wc)].
Proof.
  unfold capture. fold (suspend e st).
  destruct (suspend_same_procs e st) as (Hp & Hc & Hd).
  generalize dependent (suspend e st). intros st1 Hp Hc Hd.
  unfold execCmd, killChildProcess. cbn. rewrite Hc.
  destruct (child st); cbn; rewrite ?length_alter, Hp, Hd; done.
Qed.











(** *** Always on top *)



Lemma keeps_emit ev st :
  is_aot_update ev = false -> keeps_always_on_top st (emit ev st).
Proof. intros Hev. repeat split. exists [ev]. split; [done|]. by constructor. Qed.

(* a change to fields other than the flag, the main window and the trace *)
Lemma keeps_frame st st' :
  shouldUpdateAlwaysOnTop st' = shouldUpdateAlwaysOnTop st ->
  mainWindow st' = mainWindow st -> trace st' = trace st ->
  keeps_always_on_top st st'.
Proof.
  intros Hf Hw Ht. repeat split; try done. exists []. by rewrite app_nil_r.
Qed.
















(** *** One capture attempt from start to finish *)

Lemma pending_bounded_same st st' :
  same_procs st st' -> pending_bounded st -> pending_bounded st'.
Proof.
  intros (Hp & _ & Hd) H h k. rewrite Hp, Hd. apply H.
Qed.

Lemma pending_bounded_execCmd util args k st :
  pending_bounded st -> pending_bounded (execCmd util args k st).
Proof.
  intros H h k'. unfold execCmd. cbn. rewrite length_app, in_app_iff. cbn.
  intros [Hin|[[= <- <-]|[]]]; [apply H in Hin|]; lia.
Qed.

Lemma pending_bounded_kill st :
  pending_bounded st -> pending_bounded (killChildProcess st).
Proof.
  intros H h k. unfold killChildProcess.
  destruct (child st); cbn; rewrite ?length_alter; apply H.
Qed.

Lemma pending_bounded_step e o st :
  pending_bounded st -> pending_bounded (step e o st).
Proof.
  intros H. destruct o; cbn [step].
  - intros h k. destruct (capture_procs e now wc st) as (Hp & _ & Hd).
    rewrite Hp, Hd, length_app, in_app_iff. cbn.
    assert (Hl : length match child st with
                        | Some c => alter kill_status c (procs st)
                        | None => procs st
                        end = length (procs st))
      by (destruct (child st); by rewrite ?length_alter).
    rewrite Hl. intros [Hin|[[= <- <-]|[]]]; [apply H in Hin|]; lia.
  - unfold cancelCapture. destruct (negb _); [done|].
    by apply pending_bounded_execCmd.
  - by apply pending_bounded_kill.
  - unfold child_exit.
    destruct (procs st !! h) as [[]|]; try done.
    all: destruct (take_pending h (pending st)) as [[k rest]|] eqn:Ht;
      try done.
    all: eapply pending_bounded_same; [apply same_procs_run_cont|].
    all: intros h' k'; cbn; rewrite length_insert; intros Hin.
    all: eapply H, take_pending_In; eauto.
  - eapply pending_bounded_same; [apply same_procs_upload | done].
  - done.
  - done.
  - done.
Qed.

Lemma pending_bounded_run e ops w loc :
  pending_bounded (run e ops (init e w loc)).
Proof.
  unfold run.
  assert (H : forall st, pending_bounded st ->
                pending_bounded (foldl (fun s o => step e o s) st ops)).
  { induction ops as [|o ops IH]; intros st Hst; cbn; [done|].
    by apply IH, pending_bounded_step. }
  apply H. intros h k [].
Qed.

Lemma take_pending_fresh h k pd :
  (forall k', ~ In (h, k') pd) -> take_pending h (pd ++ [(h, k)]) = Some (k, pd).
Proof.
  induction pd as [|[h' k'] pd IH]; intros Hf; cbn.
  - by rewrite Nat.eqb_refl.
  - destruct (Nat.eqb_spec h h') as [->|Hne].
    + exfalso. apply (Hf k'). by left.
    + rewrite IH; [done|]. intros k'' Hin. apply (Hf k''). by right.
Qed.




Lemma verify_fields s :
  let s' := verifyAndUpdateAlwaysOnTop s in
  shouldUpdateAlwaysOnTop s' = false /\ mainWindow s' = restore_target s /\
  files s' = files s /\
  exists evs, trace s' = trace s ++ evs /\
              Forall (fun ev => is_cleanup ev = false) evs.
Proof.
  unfold verifyAndUpdateAlwaysOnTop, updateAlwaysOnTop, restore_target.
  destruct (shouldUpdateAlwaysOnTop s) eqn:Hf; cbn; repeat split; try done.
  - eexists. split; [reflexivity|]. by repeat constructor.
  - exists []. split; [by rewrite app_nil_r | constructor].
Qed.






(** The same attempt on Windows with the snipping-tool hand-off: [capture]
    returns with always-on-top still suspended and the file in place; both
    are left to a later 'upload-snippet' message. *)
Lemma handed_off_capture_returns_suspended :
  let st := step windows_host (OpWorld true None ∅)
              (init windows_host (Some on_top_window) "en-US") in
  let st' := capture_attempt windows_host 1700000000000 7
               (Some (Regular [x89; x50])) false st in
  mainWindow st = Some on_top_window /\
  mainWindow st' = Some {| destroyed := false; alwaysOnTop := false |} /\
  shouldUpdateAlwaysOnTop st' = true /\
  files st' !! output_path windows_host 1700000000000 st <> None.
Proof.
  intros st st'. vm_compute. repeat split; discriminate.
Qed.

(** A second [capture] that starts while the first is waiting reads the
    suspended setting as the one to restore: after both attempts are over
    the main window is no longer always on top. *)
Lemma overlapped_capture_loses_always_on_top :
  let st := init windows_host (Some on_top_window) "en-US" in
  let st' := run windows_host
               [OpCapture 1700000000000 7; OpCapture 1700000000500 7;
                OpChildExit 0; OpChildExit 1] st in
  mainWindow st = Some on_top_window /\
  mainWindow st' = Some {| destroyed := false; alwaysOnTop := false |} /\
  shouldUpdateAlwaysOnTop st' = false /\ pending st' = [].
Proof.
  intros st st'. vm_compute. repeat split.
Qed.


(** C9.  [convertFileToData] turns the bytes of the output file into the
    payload [{message: 'success', data, type: 'image/png;base64'}] whose
    data decodes back to exactly those bytes; when the file is missing the
    payload is [{message: 'file does not exist', type: 'ERROR'}] with no
    data.  Either payload is what [capture] goes on to send: a missing file
    ends the attempt like any other. *)
Theorem convertFileToData_round_trip e wc st f :
  outputFileName st = Some f -> JS.is_empty_string f = false ->
  (forall content, files st !! f = Some (Regular content) ->
     exists d,
       (convertFileToData st).1
       = {| message := "success"; data := Some d; type := "image/png;base64" |}
       /\ d = Base64.encode content /\ Base64.decode d = Some content)
  /\ (files st !! f = None \/ (exists text, files st !! f = Some (Faulty "ENOENT" text)) ->
        (convertFileToData st).1
        = {| message := "file does not exist"; data := None; type := "ERROR" |})
  /\ (isMana st = false ->
        In (EvSend wc "screen-snippet-data" (convertFileToData st).1)
           (trace (capture_resolved e wc st))).
Proof.
  intros Ho Hne. split; [|split].
  - intros content Hfile. exists (Base64.encode content).
    unfold convertFileToData. cbn. rewrite Ho, Hne, Hfile.
    repeat split. apply decode_encode.
  - intros [Hfile|(text & Hfile)]; unfold convertFileToData; cbn;
      by rewrite Ho, Hne, Hfile.
  - intros Hm. unfold capture_resolved. rewrite Hm.
    destruct (convertFileToData st) as [p st1] eqn:Hp. cbn [fst].
    destruct (verify_fields (emit (EvSend wc "screen-snippet-data" p) st1))
      as (_ & _ & _ & evs & Ht & _).
    rewrite Ht. cbn. rewrite !in_app_iff. left. right. by left.
Qed.

Lemma convertFileToData_round_trip_witness :
  let st := step mac_host (OpToolWrites "/tmp/shot.png" (Regular [x89; x50; x4e; x47]))
              (set_output (Some "/tmp/shot.png") None
                 (init mac_host None "en-US")) in
  outputFileName st = Some "/tmp/shot.png" /\
  JS.is_empty_string "/tmp/shot.png" = false /\
  exists d,
    (convertFileToData st).1
    = {| message := "success"; data := Some d; type := "image/png;base64" |}
    /\ d = Base64.encode [x89; x50; x4e; x47]
    /\ Base64.decode d = Some [x89; x50; x4e; x47].
Proof.
  intros st.
  assert (Ho : outputFileName st = Some "/tmp/shot.png") by reflexivity.
  assert (Hne : JS.is_empty_string "/tmp/shot.png" = false) by reflexivity.
  split; [exact Ho|]. split; [exact Hne|].
  apply (proj1 (convertFileToData_round_trip mac_host 7 st "/tmp/shot.png" Ho Hne)).
  vm_compute. reflexivity.
Defined.

Example encode_png_magic :
  Base64.encode [x89; x50; x4e; x47] = "iVBORw==".
Proof. reflexivity. Qed.

Example encode_Man :
  Base64.encode [x4d; x61; x6e] = "TWFu" /\
  Base64.encode [x4d; x61] = "TWE=" /\ Base64.encode [x4d] = "TQ==".
Proof. repeat split. Qed.

End SessionFacts.

Module HandlerFacts.
Import JS ApiHandler Base64Facts.

(** ** The pod login flow *)


Lemma login_emits evs st : login (emits evs st) = login st.
Proof.
  revert st. induction evs as [|ev evs IH]; intros st; cbn; [done|].
  unfold emits in IH. by rewrite IH.
Qed.

(** C3 (as amended).  When a probe fails in a way that calls for proxy
    credentials, one pending promise and one prompt are created and the
    retry counter goes up by one right then, whether or not credentials
    ever arrive.  When the user supplies credentials they are stored, that
    promise is resolved, the counter stays as it is, and the same origin is
    probed again with the proxy-login flag set.  Any other failure changes
    nothing and prompts for nothing. *)
Theorem proxy_failure_prompts_once ctx i proxyLogin error user pass st :
  probes (login st) !! i = Some (Some proxyLogin) ->
  let st1 := probe_settles ctx i (Failed error) st in
  let p := length (promises (login st)) in
  let d := proxyDetails (login st) in
  (needs_credentials proxyLogin error = true ->
     effects st1
     = effects st ++ [NewCredentialsPromise p;
                      CreateBasicAuthWindow (hostname d) (retries d =? 0)]
     /\ credentialsPromise (login st1) = Some p
     /\ promises (login st1) !! p = Some false
     /\ retries (proxyDetails (login st1)) = retries d + 1
     /\ let st2 := on_credentials user pass st1 in
        username (proxyDetails (login st2)) = user
        /\ password (proxyDetails (login st2)) = pass
        /\ promises (login st2) !! p = Some true
        /\ retries (proxyDetails (login st2)) = retries d + 1
        /\ effects st2
           = effects st1 ++
             [ResolveCredentials p;
              LogInfo "loading pod URL. Proxy: " [VBool true];
              Fetch (formattedPodUrl (login st) +:+ AUTH_STATUS_PATH) true])
  /\ (needs_credentials proxyLogin error = false ->
        effects st1 = effects st
        /\ proxyDetails (login st1) = d
        /\ promises (login st1) = promises (login st)
        /\ credentialsPromise (login st1) = credentialsPromise (login st)).
Proof.
  intros Hi st1 p d. subst st1. unfold probe_settles. rewrite Hi.
  unfold on_failure. split; intros Hn; rewrite Hn; cbn.
  - fold p. repeat split.
    + by rewrite <- app_assoc.
    + rewrite lookup_app_r by done. by rewrite Nat.sub_diag.
    + unfold on_credentials, loadPodUrl. cbn.
      rewrite list_lookup_insert_eq; [done|].
      rewrite length_app. cbn. lia.
    + unfold on_credentials, loadPodUrl. cbn. by rewrite <- !app_assoc.
  - done.
Qed.

Lemma proxy_failure_prompts_once_witness :
  let st := loadPodUrl false (init {[1%nat]} ∅) in
  let st1 := probe_settles main_ctx 0 (Failed proxy_auth_failed) st in
  probes (login st) !! 0%nat = Some (Some false) /\
  needs_credentials false proxy_auth_failed = true /\
  retries (proxyDetails (login st1)) = 1 /\
  effects (on_credentials (VStr "bob") (VStr "secret") st1)
  = effects st1 ++
    [ResolveCredentials 0; LogInfo "loading pod URL. Proxy: " [VBool true];
     Fetch (formattedPodUrl (login st) +:+ AUTH_STATUS_PATH) true].
Proof.
  intros st st1.
  assert (Hi : probes (login st) !! 0%nat = Some (Some false)) by reflexivity.
  assert (Hn : needs_credentials false proxy_auth_failed = true) by reflexivity.
  destruct (proj1 (proxy_failure_prompts_once main_ctx 0 false proxy_auth_failed
                     (VStr "bob") (VStr "secret") st Hi) Hn)
    as (_ & _ & _ & Hr & _ & _ & _ & _ & He).
  exact (conj Hi (conj Hn (conj Hr He))).
Defined.

(** C3 (as stated) fails: the retry counter is raised when the prompt is
    created, so it already reads 1 before any credentials arrive, and
    supplying them does not raise it. *)
Lemma credentials_do_not_raise_retries :
  let st := loadPodUrl false (init {[1%nat]} ∅) in
  let st1 := probe_settles main_ctx 0 (Failed proxy_auth_failed) st in
  let st2 := on_credentials (VStr "bob") (VStr "secret") st1 in
  retries (proxyDetails (login st1)) = 1 /\
  ~ (retries (proxyDetails (login st2))
     = retries (proxyDetails (login st1)) + 1).
Proof.
  intros st st1 st2. split; [reflexivity|]. vm_compute. discriminate.
Qed.




(** ** The browserLogin command *)



(** ** Redaction in [logApiCallParams] *)

Lemma assoc_set_prop_eq k v fs : assoc k (set_prop k v fs) = Some v.
Proof.
  induction fs as [|[k' v'] fs IH]; cbn.
  - by rewrite String.eqb_refl.
  - destruct (String.eqb k k') eqn:E; cbn; by rewrite ?String.eqb_refl, ?E.
Qed.

Lemma assoc_set_prop_ne k k' v fs :
  k <> k' -> assoc k (set_prop k' v fs) = assoc k fs.
Proof.
  intros Hne. induction fs as [|[k1 v1] fs IH]; cbn.
  - by rewrite (proj2 (String.eqb_neq k k')).
  - destruct (String.eqb_spec k' k1) as [->|Hne1]; cbn.
    + by rewrite (proj2 (String.eqb_neq k k1)).
    + by rewrite IH.
Qed.




Lemma agree_except_keys ks fs gs :
  agree_except ks fs gs -> map fst fs = map fst gs.
Proof.
  induction 1 as [|[k1 v1] [k2 v2] fs gs [Hkey _] _ IH]; cbn in *; congruence.
Qed.





Section Redaction.

Variable tag : apiCmds.t -> string.




End Redaction.



(** ** The dispatchers *)



Section Dispatchers.

Variable tag : apiCmds.t -> string.
Variable mainWindowName welcomeScreenName : string.
Variable parseDomain : value -> option ParsedDomain.
Variable inAutoUpdateTrigger : value -> bool.


(** What holds of C8: a message that carries an argument and comes from a
    sender the host does not track is dropped on both channels, with one
    error record naming its cmd. *)
Lemma invalid_sender_is_dropped ctx arg st :
  valid_sender st ctx = false -> nullish arg = false ->
  on_message tag mainWindowName welcomeScreenName parseDomain
    inAutoUpdateTrigger ctx arg st
  = (Completed, emit (LogError invalid_window_text [prop "cmd" arg]) st)
  /\ handle_message tag ctx arg st
     = (Completed, Undefined,
        emit (LogError invalid_window_text [prop "cmd" arg]) st).
Proof.
  intros Hv Hn.
  unfold on_message, handle_message. by rewrite Hv, Hn.
Qed.

End Dispatchers.


(** C8 fails on the code for a message without an argument: the listener
    reads [arg.cmd] for the error record before it tests [!arg], so for a
    sender the host does not track the call raises instead of logging and
    returning.  On the invoke channel the error goes back to the caller. *)
Theorem invalid_sender_without_argument_raises :
  let st := init {[1%nat]} {[2%nat]} in
  valid_sender st stranger_ctx = false /\
  on_message apiCmds.name "main" "welcome" labels_parseDomain (fun _ => false)
    stranger_ctx VUndef st
  = (Raised "TypeError: Cannot read properties of undefined (reading 'cmd')", st)
  /\ handle_message apiCmds.name stranger_ctx VUndef st
     = (Raised "TypeError: Cannot read properties of undefined (reading 'cmd')",
        Undefined, st).
Proof.
  intros st. repeat split.
Qed.

(** The handlers at work on the sample data. *)
Example setBadgeCount_runs :
  on_message apiCmds.name "main" "welcome" labels_parseDomain (fun _ => false)
    main_ctx (message apiCmds.setBadgeCount [("count", VNum 3)])
    (init {[1%nat]} ∅)
  = (Completed,
     emits [ LogApiCall (VStr "setBadgeCount")
               (message apiCmds.setBadgeCount [("count", VNum 3)]);
             Call "showBadgeCount" [VNum 3];
             Call "presenceStatusStore.setNotificationCount" [VNum 3];
             LogInfo "main-api-handler: show and update count: " [VNum 3] ]
       (init {[1%nat]} ∅)).
Proof. reflexivity. Qed.

Example setBadgeCount_skips_malformed_count :
  on_message apiCmds.name "main" "welcome" labels_parseDomain (fun _ => false)
    main_ctx (message apiCmds.setBadgeCount [("count", VStr "3")])
    (init {[1%nat]} ∅)
  = (Completed,
     emit (LogApiCall (VStr "setBadgeCount")
             (message apiCmds.setBadgeCount [("count", VStr "3")]))
       (init {[1%nat]} ∅)).
Proof. reflexivity. Qed.

Example getCurrentOriginUrl_replies :
  handle_message apiCmds.name main_ctx
    (message apiCmds.getCurrentOriginUrl []) (init {[1%nat]} ∅)
  = (Completed, Value (VStr "https://acme.symphony.com"), init {[1%nat]} ∅).
Proof. reflexivity. Qed.

Example stranger_is_rejected :
  on_message apiCmds.name "main" "welcome" labels_parseDomain (fun _ => false)
    stranger_ctx (message apiCmds.restartApp []) (init {[1%nat]} ∅)
  = (Completed,
     emit (LogError invalid_window_text [VStr "restartApp"]) (init {[1%nat]} ∅)).
Proof. reflexivity. Qed.

End HandlerFacts.

(** ** Further properties of the capture session *)

Module SessionLaws.
Import ScreenSnippet SessionFacts.

(** *** Callbacks run once *)

(** X1.  The exit callback of a process runs the code waiting for it at
    most once: a second exit event for the same handle changes nothing. *)
Theorem child_exit_runs_once e h st :
  child_exit e h (child_exit e h st) = child_exit e h st.
Proof.
  unfold child_exit at 2.
  destruct (procs st !! h) as [s|] eqn:Hp.
  2: { done. }
  destruct (take_pending h (pending st)) as [[k rest]|] eqn:Ht.
  2: { by destruct s. }
  assert (Hx : forall killed,
    let s1 := run_cont e k killed
                (set_procs (child st) (<[h := PExited]> (procs st)) rest st) in
    child_exit e h s1 = s1).
  { intros killed s1.
    destruct (same_procs_run_cont e k killed
                (set_procs (child st) (<[h := PExited]> (procs st)) rest st))
      as (Hp1 & _ & _).
    fold s1 in Hp1. cbn in Hp1. unfold child_exit. rewrite Hp1.
    rewrite list_lookup_insert_eq by (eapply lookup_lt_Some; eauto).
    done. }
  destruct s; cbv beta iota; [| |done].
  - rewrite (Hx false). unfold child_exit. by rewrite Hp, Ht.
  - rewrite (Hx true). unfold child_exit. by rewrite Hp, Ht.
Qed.

Lemma upload_listener_fields d s wc :
  uploadListeners (upload_listener d s wc) = uploadListeners s /\
  exists evs, trace (upload_listener d s wc) = trace s ++ evs /\
              length (List.filter is_send evs) = 1%nat.
Proof.
  unfold upload_listener, deleteFile, verifyAndUpdateAlwaysOnTop,
    updateAlwaysOnTop.
  destruct (shouldUpdateAlwaysOnTop _) eqn:Hf; cbn; rewrite ?Hf; cbn;
    (split; [done|]); rewrite <- ?app_assoc; eexists; (split; [reflexivity|]);
    reflexivity.
Qed.

Lemma set_uploadListeners_nil s :
  uploadListeners s = [] -> set_uploadListeners [] s = s.
Proof. destruct s. cbn. by intros ->. Qed.

(** X2.  One 'upload-snippet' message runs every listener that
    [uploadSnippet] has registered since the last one: it sends one payload
    per listener, so as many as there were hand-off captures, and removes
    them all; a further message sends nothing and changes nothing. *)
Theorem upload_snippet_fires_each_listener_once d d' st :
  let st' := on_upload_snippet d st in
  uploadListeners st' = [] /\
  length (List.filter is_send (new_events st st')) = length (uploadListeners st) /\
  on_upload_snippet d' st' = st'.
Proof.
  intros st'.
  assert (H : forall ls s,
            uploadListeners (foldl (upload_listener d) s ls) = uploadListeners s /\
            exists evs, trace (foldl (upload_listener d) s ls) = trace s ++ evs /\
                        length (List.filter is_send evs) = length ls).
  { induction ls as [|wc ls IH]; intros s; cbn.
    - split; [done|]. exists []. by rewrite app_nil_r.
    - destruct (IH (upload_listener d s wc)) as (Hl & evs & Ht & Hn).
      destruct (upload_listener_fields d s wc) as (Hl1 & evs1 & Ht1 & Hn1).
      split; [congruence|]. exists (evs1 ++ evs). split.
      + by rewrite Ht, Ht1, app_assoc.
      + rewrite List.filter_app, length_app. lia. }
  destruct (H (uploadListeners st) (set_uploadListeners [] st))
    as (Hl & evs & Ht & Hn).
  fold (on_upload_snippet d st) in Hl, Ht. fold st' in Hl, Ht. cbn in Hl, Ht.
  split; [done|]. split.
  - unfold new_events. by rewrite Ht, drop_app_length.
  - unfold on_upload_snippet at 1. rewrite Hl. cbn.
    by apply set_uploadListeners_nil.
Qed.

(** *** Processes the session has lost track of *)

Lemma orphan_step e o h st :
  running st h -> child st <> Some h -> is_exit_of h o = false ->
  running (step e o st) h /\ child (step e o st) <> Some h.
Proof.
  unfold running. intros Hr Hc Ho.
  pose proof (lookup_lt_Some _ _ _ Hr) as Hlt.
  assert (Hex : forall util args k s,
            procs s !! h = Some PRunning ->
            procs (execCmd util args k s) !! h = Some PRunning /\
            child (execCmd util args k s) <> Some h).
  { intros util args k s Hs. pose proof (lookup_lt_Some _ _ _ Hs).
    unfold execCmd. cbn. rewrite lookup_app_l by done.
    split; [done|]. intros [= ?]. lia. }
  assert (Hk : forall s, procs s !! h = Some PRunning -> child s <> Some h ->
            procs (killChildProcess s) !! h = Some PRunning /\
            child (killChildProcess s) <> Some h).
  { intros s Hs Hcs. unfold killChildProcess.
    destruct (child s) as [c|] eqn:E; [|by rewrite ?E]. cbn. rewrite ?E.
    split; [|done]. rewrite list_lookup_alter_ne; [done|]. congruence. }
  destruct o; cbn [step].
  - destruct (capture_procs e now wc st) as (Hp & Hc' & _).
    rewrite Hp, Hc'. split; [|intros [= ?]; lia].
    rewrite lookup_app_l
      by (destruct (child st); rewrite ?length_alter; done).
    destruct (child st) as [c|]; [|done].
    rewrite list_lookup_alter_ne; [done|]. congruence.
  - unfold cancelCapture. destruct (negb _); [done|]. by apply Hex.
  - by apply Hk.
  - cbn in Ho. apply Nat.eqb_neq in Ho.
    unfold child_exit.
    destruct (procs st !! h0) as [[]|] eqn:E; try done.
    all: destruct (take_pending h0 (pending st)) as [[k rest]|]; try done.
    all: match goal with |- context [run_cont ?e' ?k' ?b ?s] =>
           destruct (same_procs_run_cont e' k' b s) as (Hp & Hc' & _) end.
    all: rewrite Hp, Hc'; cbn.
    all: by rewrite list_lookup_insert_ne.
  - destruct (same_procs_upload d st) as (Hp & Hc' & _). by rewrite Hp, Hc'.
  - done.
  - done.
  - done.
Qed.

(** X3.  [killChildProcess] reaches the stored handle only.  A process
    that is live while another handle is stored (as after [cancelCapture]
    on Windows) stays live and stays out of [this.child] through every later
    call and event except its own exit: no capture, cancel or kill ends
    it. *)
Theorem replaced_process_is_never_killed e ops h st :
  running st h -> child st <> Some h ->
  Forall (fun o => is_exit_of h o = false) ops ->
  running (run e ops st) h /\ child (run e ops st) <> Some h.
Proof.
  intros Hr Hc Hops. revert st Hr Hc. unfold run.
  induction Hops as [|o ops Ho _ IH]; intros st Hr Hc; cbn; [done|].
  destruct (orphan_step e o h st Hr Hc Ho). by apply IH.
Qed.

Lemma replaced_process_is_never_killed_witness :
  let st := run windows_host [OpCapture 1700000000000 7; OpCancelCapture]
              (init windows_host (Some on_top_window) "en-US") in
  let ops := [OpChildExit 1; OpCapture 1700000000900 7; OpKillChildProcess;
              OpCancelCapture] in
  running st 0 /\ child st <> Some 0%nat /\
  running (run windows_host ops st) 0 /\
  child (run windows_host ops st) <> Some 0%nat.
Proof.
  intros st ops.
  assert (Hr : running st 0) by reflexivity.
  assert (Hc : child st <> Some 0%nat) by discriminate.
  assert (Ho : Forall (fun o => is_exit_of 0 o = false) ops)
    by (repeat constructor).
  exact (conj Hr (conj Hc
           (replaced_process_is_never_killed windows_host ops 0 st Hr Hc Ho))).
Defined.

(** *** The file system *)











(** *** The output path *)

Lemma append_inv_head (a x y : string) : a +:+ x = a +:+ y -> x = y.
Proof. induction a as [|c a IH]; cbn; [done|]. intros [= H]. by apply IH. Qed.

Lemma length_append (x y : string) :
  String.length (x +:+ y) = (String.length x + String.length y)%nat.
Proof.
  induction x as [|c x IH]; [done|].
  change (String c x +:+ y) with (String c (x +:+ y)).
  cbn [String.length]. by rewrite IH.
Qed.

Lemma append_inv_tail (x y t : string) : x +:+ t = y +:+ t -> x = y.
Proof.
  revert y. induction x as [|c x IH]; intros [|d y]; cbn; intros H.
  - done.
  - apply (f_equal String.length) in H.
    rewrite !length_append in H. cbn [String.length] in H. lia.
  - apply (f_equal String.length) in H.
    rewrite !length_append in H. cbn [String.length] in H. lia.
  - injection H as -> H. f_equal. by apply IH.
Qed.

(** X5.  The output file is named after the clock alone: two captures of
    one session write to the same path exactly when [Date.now()] gave them
    the same value, whatever else changed in between. *)
Theorem output_path_follows_the_clock e now1 now2 st1 st2 :
  tempDir st1 = tempDir st2 ->
  (output_path e now1 st1 = output_path e now2 st2 <-> now1 = now2).
Proof.
  intros Htd. unfold output_path, path_join. rewrite Htd. split.
  - intros H. apply append_inv_head, append_inv_head in H.
    cbn in H. injection H as H. apply append_inv_head, append_inv_tail in H.
    by apply (inj pretty).
  - by intros ->.
Qed.

Lemma output_path_follows_the_clock_witness :
  let st1 := init mac_host None "en-US" in
  let st2 := capture mac_host 1700000000000 7 st1 in
  tempDir st1 = tempDir st2 /\
  (output_path mac_host 1700000000000 st1 = output_path mac_host 1700000000001 st2
   <-> 1700000000000 = 1700000000001).
Proof.
  intros st1 st2.
  assert (H : tempDir st1 = tempDir st2) by reflexivity.
  exact (conj H (output_path_follows_the_clock mac_host _ _ st1 st2 H)).
Defined.

(** X6.  [capture] stores the path it computed and starts the tool last,
    with the stored arguments.  On macOS, Windows and Linux the stored path
    is among them, so the tool writes where [convertFileToData] will read;
    on any other platform the tool is started with no arguments at all. *)
Theorem capture_hands_the_path_to_the_tool e now wc st :
  let st1 := capture e now wc st in
  let f := output_path e now st in
  exists args,
    outputFileName st1 = Some f /\ captureUtilArgs st1 = Some args /\
    last (trace st1) = Some (EvSpawn (length (procs st)) (captureUtil st) args) /\
    match os e with
    | OtherOS => args = []
    | _ => In f args
    end.
Proof.
  intros st1 f. subst st1 f. unfold capture. fold (suspend e st).
  destruct (suspend_same_procs e st) as (Hp & _ & _).
  destruct (suspend_fields e st) as (Htd & Hu & _).
  assert (Hout : output_path e now (suspend e st) = output_path e now st)
    by (unfold output_path; by rewrite Htd).
  generalize dependent (suspend e st). intros s1 Hp Htd Hu Hout.
  exists (capture_args e s1 (output_path e now st)).
  unfold execCmd, killChildProcess. cbn.
  destruct (child s1); cbn; rewrite ?length_alter, Hout, Hp, Hu, last_snoc.
  all: repeat split.
  all: unfold capture_args; destruct (os e); try destruct (isMana s1);
    cbn; tauto.
Qed.

(** *** Reading the output file *)


(** X8.  With the snipping-tool hand-off on, the code after the tool's exit
    sends nothing and unlinks nothing.  When the output file holds an image
    whose size can be read, the snipping window is created with that size
    and one more 'upload-snippet' listener is registered, with always-on-top
    left suspended; when the file is missing or is no image, no window and
    no listener are created and always-on-top is restored. *)
Theorem hand_off_after_tool_exit e wc st f :
  isMana st = true -> outputFileName st = Some f ->
  JS.is_empty_string f = false ->
  let st' := capture_resolved e wc st in
  files st' = files st /\
  Forall (fun ev => is_cleanup ev = false) (new_events st st') /\
  (forall content dims,
     files st !! f = Some (Regular content) -> sizeOf e content = Some dims ->
     new_events st st'
     = [EvCloseSnippingToolWindow;
        EvCreateSnippingToolWindow (Some f) (Some dims);
        EvOnceUploadSnippet wc] /\
     uploadListeners st' = uploadListeners st ++ [wc] /\
     shouldUpdateAlwaysOnTop st' = shouldUpdateAlwaysOnTop st /\
     mainWindow st' = mainWindow st)
  /\ ((forall content, files st !! f = Some (Regular content) ->
                       sizeOf e content = None) ->
      uploadListeners st' = uploadListeners st /\
      shouldUpdateAlwaysOnTop st' = false /\
      mainWindow st' = restore_target st /\
      forall p dims, ~ In (EvCreateSnippingToolWindow p dims) (new_events st st')).
Proof.
  intros Hm Ho Hne st'. subst st'. unfold capture_resolved. rewrite Hm.
  unfold getImageSize. cbn. rewrite Ho, Hne. unfold new_events.
  destruct (files st !! f) as [[content|code text]|] eqn:Hf;
    [destruct (sizeOf e content) as [dims|] eqn:Hs|..].
  - unfold uploadSnippet. cbn. rewrite <- !app_assoc, drop_app_length.
    split; [done|]. split; [by repeat constructor|]. split.
    + intros c d [= <-] Hd. rewrite Hs in Hd. by injection Hd as <-.
    + intros H. specialize (H content eq_refl). congruence.
  - unfold verifyAndUpdateAlwaysOnTop, updateAlwaysOnTop, restore_target. cbn.
    destruct (shouldUpdateAlwaysOnTop st) eqn:Hflag; cbn;
      rewrite <- ?app_assoc, drop_app_length, ?Hflag.
    all: split; [done|]; split; [by repeat constructor|]; split.
    all: try (intros c d [= <-] Hd; congruence).
    all: intros _; repeat split; try done.
    all: intros p d H; cbn in H; intuition discriminate.
  - unfold verifyAndUpdateAlwaysOnTop, updateAlwaysOnTop, restore_target. cbn.
    destruct (shouldUpdateAlwaysOnTop st) eqn:Hflag; cbn;
      rewrite <- ?app_assoc, drop_app_length, ?Hflag.
    all: split; [done|]; split; [by repeat constructor|]; split.
    all: try (intros c d [=]).
    all: intros _; repeat split; try done.
    all: intros p d H; cbn in H; intuition discriminate.
  - unfold verifyAndUpdateAlwaysOnTop, updateAlwaysOnTop, restore_target. cbn.
    destruct (shouldUpdateAlwaysOnTop st) eqn:Hflag; cbn;
      rewrite <- ?app_assoc, drop_app_length, ?Hflag.
    all: split; [done|]; split; [by repeat constructor|]; split.
    all: try (intros c d [=]).
    all: intros _; repeat split; try done.
    all: intros p d H; cbn in H; intuition discriminate.
Qed.

Lemma hand_off_after_tool_exit_witness :
  let st := run windows_host
              [OpWorld true None ∅; OpCapture 1700000000000 7;
               OpToolWrites "/home/user/.config/Symphony\temp\symphonyImage-1700000000000.png"
                 (Regular [x89; x50])]
              (init windows_host (Some on_top_window) "en-US") in
  let f := "/home/user/.config/Symphony\temp\symphonyImage-1700000000000.png" in
  isMana st = true /\ outputFileName st = Some f /\
  JS.is_empty_string f = false /\
  files (capture_resolved windows_host 7 st) = files st /\
  uploadListeners (capture_resolved windows_host 7 st) = [7%nat].
Proof.
  intros st f.
  assert (Hm : isMana st = true) by reflexivity.
  assert (Ho : outputFileName st = Some f) by (vm_compute; reflexivity).
  assert (Hne : JS.is_empty_string f = false) by reflexivity.
  destruct (hand_off_after_tool_exit windows_host 7 st f Hm Ho Hne)
    as (H1 & _ & H2 & _).
  destruct (H2 [x89; x50] (640, 480)) as (_ & H3 & _);
    [vm_compute; reflexivity | reflexivity |].
  exact (conj Hm (conj Ho (conj Hne (conj H1 H3)))).
Defined.

(** *** Killing and cancelling *)

(** X9.  [killChildProcess] touches the stored handle and nothing else:
    afterwards that process is not live, every other process has the status
    it had, and the handle stays stored.  A second call changes no status,
    and without a stored handle the call does nothing at all. *)
Theorem killChildProcess_is_idempotent st :
  procs (killChildProcess (killChildProcess st)) = procs (killChildProcess st)
  /\ child (killChildProcess st) = child st
  /\ (forall h, child st = Some h -> ~ running (killChildProcess st) h)
  /\ (forall h, child st <> Some h ->
        procs (killChildProcess st) !! h = procs st !! h)
  /\ (child st = None -> killChildProcess st = st).
Proof.
  unfold killChildProcess, running.
  destruct (child st) as [c|] eqn:Hc; cbn; rewrite ?Hc; cbn; [|done].
  repeat split.
  - apply list_eq. intros i. rewrite !list_lookup_alter.
    destruct (decide (c = i)) as [<-|]; [|done].
    rewrite decide_True by done. by destruct (procs st !! c) as [[]|].
  - intros h [= <-]. rewrite list_lookup_alter, decide_True by done.
    by destruct (procs st !! c) as [[]|].
  - intros h Hne. rewrite list_lookup_alter_ne; [done|]. congruence.
  - done.
Qed.

(** X10.  [cancelCapture] does nothing off Windows.  On Windows it runs
    the tool without arguments and, when that process ends (killed or not),
    restores always-on-top and clears the flag, even while the capture it
    cancels is still waiting for its own tool; it neither unlinks the output
    file nor sends a payload. *)
Theorem cancelCapture_restores_always_on_top e ops w loc killed :
  let st := run e ops (init e w loc) in
  let st' := cancel_attempt e killed st in
  (isWindowsOS e = false -> st' = st)
  /\ (isWindowsOS e = true ->
        shouldUpdateAlwaysOnTop st' = false /\
        mainWindow st' = restore_target st /\
        files st' = files st /\
        outputFileName st' = outputFileName st /\
        pending st' = pending st /\
        (exists evs, new_events st st'
                     = EvSpawn (length (procs st)) (captureUtil st) [] :: evs /\
                     Forall (fun ev => is_cleanup ev = false) evs)).
Proof.
  intros st st'. subst st'. unfold cancel_attempt, cancelCapture.
  split; intros Hos; rewrite Hos; cbn [negb]; [done|].
  pose proof (pending_bounded_run e ops w loc) as Hpb. fold st in Hpb.
  clearbody st.
  set (h := length (procs st)).
  assert (Htp : take_pending h (pending st ++ [(h, CancelK)])
                = Some (CancelK, pending st)).
  { apply take_pending_fresh. intros k Hin. apply Hpb in Hin. subst h. lia. }
  unfold execCmd. cbn. fold h.
  assert (Hl : (procs st ++ [PRunning]) !! h = Some PRunning)
    by (rewrite lookup_app_r by (subst h; lia); by rewrite Nat.sub_diag).
  destruct killed.
  - unfold child_exit, killChildProcess. cbn.
    rewrite list_lookup_alter, decide_True by done.
    rewrite Hl, Htp. cbn [fmap option_fmap option_map kill_status run_cont].
    match goal with |- context [verifyAndUpdateAlwaysOnTop ?s] =>
      pose proof (verify_fields s) as Hv; set (s3 := s) in * end.
    cbv zeta in Hv. destruct Hv as (Hvf & Hvw & Hvfiles & evs' & Hvt & Hev').
    assert (Hs3 : restore_target s3 = restore_target st /\
                  files s3 = files st /\
                  outputFileName (verifyAndUpdateAlwaysOnTop s3) = outputFileName st /\
                  pending (verifyAndUpdateAlwaysOnTop s3) = pending st /\
                  trace s3 = trace st ++ [EvSpawn h (captureUtil st) []; EvKill h]).
    { subst s3. unfold verifyAndUpdateAlwaysOnTop, updateAlwaysOnTop. cbn.
      destruct (shouldUpdateAlwaysOnTop st); cbn; rewrite <- ?app_assoc; done. }
    clearbody s3. destruct Hs3 as (Hr3 & Hfs3 & Ho3 & Hp3 & Ht3).
    repeat split; try congruence.
    unfold new_events. rewrite Hvt, Ht3, <- !app_assoc, drop_app_length. cbn.
    eexists. split; [reflexivity|]. by constructor.
  - unfold child_exit. cbn. rewrite Hl, Htp. cbn [run_cont].
    match goal with |- context [verifyAndUpdateAlwaysOnTop ?s] =>
      pose proof (verify_fields s) as Hv; set (s3 := s) in * end.
    cbv zeta in Hv. destruct Hv as (Hvf & Hvw & Hvfiles & evs' & Hvt & Hev').
    assert (Hs3 : restore_target s3 = restore_target st /\
                  files s3 = files st /\
                  outputFileName (verifyAndUpdateAlwaysOnTop s3) = outputFileName st /\
                  pending (verifyAndUpdateAlwaysOnTop s3) = pending st /\
                  trace s3 = trace st ++ [EvSpawn h (captureUtil st) []]).
    { subst s3. unfold verifyAndUpdateAlwaysOnTop, updateAlwaysOnTop. cbn.
      destruct (shouldUpdateAlwaysOnTop st); cbn; done. }
    clearbody s3. destruct Hs3 as (Hr3 & Hfs3 & Ho3 & Hp3 & Ht3).
    repeat split; try congruence.
    unfold new_events. rewrite Hvt, Ht3, <- !app_assoc, drop_app_length. cbn.
    eexists. split; [reflexivity|]. done.
Qed.

Lemma cancelCapture_restores_always_on_top_witness :
  let st := run windows_host [OpCapture 1700000000000 7]
              (init windows_host (Some on_top_window) "en-US") in
  let st' := cancel_attempt windows_host false st in
  isWindowsOS windows_host = true /\
  mainWindow st = Some {| destroyed := false; alwaysOnTop := false |} /\
  shouldUpdateAlwaysOnTop st' = false /\
  mainWindow st' = restore_target st /\
  restore_target st = Some on_top_window.
Proof.
  intros st st'.
  assert (Hos : isWindowsOS windows_host = true) by reflexivity.
  destruct (proj2 (cancelCapture_restores_always_on_top windows_host
                     [OpCapture 1700000000000 7] (Some on_top_window) "en-US"
                     false) Hos) as (H1 & H2 & _).
  exact (conj Hos (conj eq_refl (conj H1 (conj H2 eq_refl)))).
Defined.

End SessionLaws.

(** ** Further properties of the API handler *)

Module HandlerLaws.
Import JS ApiHandler Base64Facts HandlerFacts.

(** *** What the log records give away and what they keep *)



(** X12.  Redaction of a notification touches three properties only:
    title, body and data read 'hidden' in the logged record whether or not
    the options had them, and every other property of the options is logged
    with the value it came with.  Options that are not an object are logged
    as the three placeholders alone. *)
Theorem notification_record_keeps_the_rest opts :
  prop "title" (notification_record opts) = hidden /\
  prop "body" (notification_record opts) = hidden /\
  prop "data" (notification_record opts) = hidden /\
  (forall k, k <> "title" -> k <> "body" -> k <> "data" ->
     prop k (notification_record opts) = default VUndef (assoc k (own_props opts))) /\
  (own_props opts = [] ->
     notification_record opts
     = VObj [("title", hidden); ("body", hidden); ("data", hidden)]).
Proof.
  unfold notification_record, prop. repeat split.
  - rewrite !assoc_set_prop_ne by done. by rewrite assoc_set_prop_eq.
  - rewrite !assoc_set_prop_ne by done. by rewrite assoc_set_prop_eq.
  - by rewrite assoc_set_prop_eq.
  - intros k H1 H2 H3. by rewrite !assoc_set_prop_ne.
  - by intros ->.
Qed.

Lemma redact_source_shape x r :
  redact_source x = Some r ->
  nullish x = false /\
  exists name id display_id appIcon,
    r = VObj [("name", name); ("id", id); ("thumbnail", hidden);
              ("display_id", display_id); ("appIcon", appIcon)].
Proof.
  unfold redact_source. destruct (nullish x); [done|].
  intros [= <-]. split; [done|]. eauto 10.
Qed.

(** X13.  The sources of openScreenPickerWindow are logged one record per
    source, each with exactly the properties name, id, thumbnail, display_id
    and appIcon and with 'hidden' for the thumbnail, so nothing else a
    source carries reaches the log.  Building the record raises exactly when
    some source is null or undefined. *)
Theorem redact_sources_shape xs :
  match redact_sources xs with
  | Some rs =>
      length rs = length xs /\
      Forall (fun x => nullish x = false) xs /\
      Forall (fun r => exists name id display_id appIcon,
                r = VObj [("name", name); ("id", id); ("thumbnail", hidden);
                          ("display_id", display_id); ("appIcon", appIcon)]) rs
  | None => Exists (fun x => nullish x = true) xs
  end.
Proof.
  induction xs as [|x xs IH]; cbn; [by repeat split|].
  destruct (redact_source x) as [r|] eqn:Hr.
  - destruct (redact_sources xs) as [rs|].
    + destruct IH as (Hl & Hx & Hrs).
      destruct (redact_source_shape x r Hr) as (Hn & Hshape).
      cbn. repeat split; [by rewrite Hl | by constructor | by constructor].
    + by apply Exists_cons_tl.
  - apply Exists_cons_hd. unfold redact_source in Hr.
    by destruct (nullish x).
Qed.

(** *** The fire-and-forget listener *)

Lemma effects_emit ev st : effects (emit ev st) = effects st ++ [ev].
Proof. done. Qed.

Section Listener.

Variable tag : apiCmds.t -> string.
Variable mainWindowName welcomeScreenName : string.
Variable parseDomain : value -> option ParsedDomain.
Variable inAutoUpdateTrigger : value -> bool.



End Listener.




(** *** What the handlers leave alone *)

Lemma oae_refl st : only_adds_effects st st.
Proof. repeat split. exists []. by rewrite app_nil_r. Qed.

Lemma oae_trans st1 st2 st3 :
  only_adds_effects st1 st2 -> only_adds_effects st2 st3 ->
  only_adds_effects st1 st3.
Proof.
  intros (H1 & H2 & H3 & H4 & evs & H5) (H1' & H2' & H3' & H4' & evs' & H5').
  repeat split; try congruence. exists (evs ++ evs').
  by rewrite H5', H5, app_assoc.
Qed.

Lemma oae_emit ev st : only_adds_effects st (emit ev st).
Proof. repeat split. by exists [ev]. Qed.

Lemma oae_set_flags f st : only_adds_effects st (set_flags f st).
Proof. repeat split. exists []. by rewrite app_nil_r. Qed.

Lemma oae_emits evs st : only_adds_effects st (emits evs st).
Proof.
  revert st. induction evs as [|ev evs IH]; intros st; [apply oae_refl|].
  eapply oae_trans; [apply (oae_emit ev)|]. apply IH.
Qed.

Lemma oae_focus_main ctx st : only_adds_effects st (focus_main ctx st).
Proof.
  unfold focus_main. destruct (mainWebContents ctx) as [[]|];
    first [apply oae_refl | apply oae_emit].
Qed.

Lemma oae_main_window_call ctx m args st :
  only_adds_effects st (main_window_call ctx m args st).
Proof.
  unfold main_window_call. destruct (mainWindow ctx);
    first [apply oae_refl | apply oae_emit].
Qed.

Lemma oae_when b f st :
  (forall s, only_adds_effects s (f s)) -> only_adds_effects st (when b f st).
Proof. intros H. unfold when. destruct b; [apply H | apply oae_refl]. Qed.

(* peel the outermost operation of a handler body *)
Ltac oae :=
  repeat first
    [ apply oae_refl
    | match goal with
      | |- only_adds_effects _ (emit _ _) =>
          eapply oae_trans; [|apply oae_emit]
      | |- only_adds_effects _ (emits _ _) =>
          eapply oae_trans; [|apply oae_emits]
      | |- only_adds_effects _ (set_flags _ _) =>
          eapply oae_trans; [|apply oae_set_flags]
      | |- only_adds_effects _ (focus_main _ _) =>
          eapply oae_trans; [|apply oae_focus_main]
      | |- only_adds_effects _ (main_window_call _ _ _ _) =>
          eapply oae_trans; [|apply oae_main_window_call]
      | |- only_adds_effects _ (when _ _ _) =>
          eapply oae_trans; [|apply oae_when; intros ?]
      | |- only_adds_effects _ (match ?x with _ => _ end) => destruct x
      | |- only_adds_effects _ (match ?x with _ => _ end _) => destruct x
      end ].

Section Frames.

Variable tag : apiCmds.t -> string.
Variable mainWindowName welcomeScreenName : string.
Variable parseDomain : value -> option ParsedDomain.
Variable inAutoUpdateTrigger : value -> bool.

Lemma oae_on_case c ctx arg st :
  c <> apiCmds.browserLogin ->
  only_adds_effects st
    (on_case tag mainWindowName welcomeScreenName parseDomain
       inAutoUpdateTrigger c ctx arg st).2.
Proof.
  intros Hc. destruct c; try done; cbn [on_case snd]; unfold swiftSearchInstance.
  all: oae.
Qed.

Lemma flags_emits evs st : flags (emits evs st) = flags st.
Proof.
  revert st. induction evs as [|ev evs IH]; intros st; cbn; [done|].
  unfold emits in IH. by rewrite IH.
Qed.

Lemma flags_focus_main ctx st : flags (focus_main ctx st) = flags st.
Proof. unfold focus_main. by destruct (mainWebContents ctx) as [[]|]. Qed.

Lemma flags_main_window_call ctx m args st :
  flags (main_window_call ctx m args st) = flags st.
Proof. unfold main_window_call. by destruct (mainWindow ctx). Qed.

Lemma flags_when b f st :
  (forall s, flags (f s) = flags s) -> flags (when b f st) = flags st.
Proof. intros H. unfold when. destruct b; [apply H | done]. Qed.

(** X16.  The invoke channel is read-only.  Whatever the sender and the
    argument, a call on it leaves the login variables, the stored
    configuration, the tracked windows and views and the window-handler
    flags as they were.  It adds at most one effect: the error record for an
    invalid sender, or the permission dialog, which is shown only for
    showScreenSharePermissionDialog and only while a focused window exists
    that is not destroyed. *)
Theorem invoke_channel_is_read_only ctx arg st :
  let st' := (handle_message tag ctx arg st).2 in
  only_adds_effects st st' /\ flags st' = flags st /\
  (effects st' = effects st
   \/ (valid_sender st ctx = false /\
       effects st' = effects st ++ [LogError invalid_window_text [prop "cmd" arg]])
   \/ (valid_sender st ctx = true /\ focusedWindow ctx = Some false /\
       switch_on tag apiCmds.handle_cases (prop "cmd" arg)
       = Some apiCmds.showScreenSharePermissionDialog /\
       exists text, effects st' = effects st ++ [Call "dialog.showMessageBox" text])).
Proof.
  intros st'. subst st'. unfold handle_message.
  destruct (valid_sender st ctx) eqn:Hv; cbn [negb].
  - destruct (truthy arg); cbn [negb snd].
    2: { split; [apply oae_refl|]. split; [done|]. by left. }
    destruct (switch_on tag apiCmds.handle_cases (prop "cmd" arg)) as [c|] eqn:Hc.
    2: { split; [apply oae_refl|]. split; [done|]. by left. }
    destruct c; cbn [handle_case snd];
      try (split; [apply oae_refl|]; split; [done|]; by left).
    destruct (focusedWindow ctx) as [[]|] eqn:Hf;
      try (split; [apply oae_refl|]; split; [done|]; by left).
    split; [apply oae_emit|]. split; [done|]. right. right.
    repeat split; try done. by eexists.
  - destruct (nullish arg); cbn [snd].
    + split; [apply oae_refl|]. split; [done|]. by left.
    + split; [apply oae_emit|]. split; [done|]. right. by left.
Qed.

Lemma browserLogin_effects ctx arg st :
  exists evs,
    effects (browserLogin parseDomain ctx arg st).2 = effects st ++ evs.
Proof.
  assert (He : effects (login_config arg st) = effects st)
    by (unfold login_config, updateUserConfig; by destruct (truthy _)).
  unfold browserLogin. destruct (parseDomain _); cbn [snd].
  - unfold loadPodUrl. cbn. rewrite He, <- !app_assoc. by eexists.
  - exists []. by rewrite He, app_nil_r.
Qed.

(** X17.  A call is logged before it is handled.  For a valid sender and
    an argument that is not falsy, whenever the log record can be built it
    is the first thing the listener adds, and all that the handler of the
    command does comes after it. *)
Theorem call_is_logged_before_it_is_handled ctx arg st record :
  valid_sender st ctx = true -> truthy arg = true ->
  logApiCallParams tag arg = Some record ->
  exists evs,
    effects (on_message tag mainWindowName welcomeScreenName parseDomain
               inAutoUpdateTrigger ctx arg st).2
    = effects st ++ record :: evs.
Proof.
  intros Hv Ha Hl. unfold on_message. rewrite Hv, Ha, Hl. cbn [negb].
  destruct (switch_on tag apiCmds.on_cases (prop "cmd" arg)) as [c|];
    [|by exists []].
  assert (H : exists evs,
            effects (on_case tag mainWindowName welcomeScreenName parseDomain
                       inAutoUpdateTrigger c ctx arg (emit record st)).2
            = effects (emit record st) ++ evs).
  { assert (Hc : c = apiCmds.browserLogin \/ c <> apiCmds.browserLogin)
      by (destruct c; first [by left | by right]).
    destruct Hc as [-> | Hc].
    - apply browserLogin_effects.
    - by destruct (oae_on_case c ctx arg (emit record st) Hc) as (_ & _ & _ & _ & H). }
  destruct H as [evs H]. exists evs. rewrite H. cbn. by rewrite <- app_assoc.
Qed.


(** X19.  The flags of the window handler have four writers.  Unless the
    command selects isOnline, registerProtocolHandler, sanitize or
    setIsMana, a message leaves the online, loading, logged-in and mana
    flags as they were. *)
Theorem flags_have_four_writers ctx arg st :
  (forall c, switch_on tag apiCmds.on_cases (prop "cmd" arg) = Some c ->
     ~ In c [apiCmds.isOnline; apiCmds.registerProtocolHandler;
             apiCmds.sanitize; apiCmds.setIsMana]) ->
  flags (on_message tag mainWindowName welcomeScreenName parseDomain
           inAutoUpdateTrigger ctx arg st).2
  = flags st.
Proof.
  intros Hc. unfold on_message.
  destruct (valid_sender st ctx); cbn [negb].
  2: by destruct (nullish arg).
  destruct (truthy arg); cbn [negb snd]; [|done].
  destruct (logApiCallParams tag arg) as [record|]; [|done].
  destruct (switch_on tag apiCmds.on_cases (prop "cmd" arg)) as [c|]; [|done].
  specialize (Hc c eq_refl).
  change (flags st) with (flags (emit record st)).
  generalize (emit record st). intros s.
  destruct c; try (exfalso; apply Hc; cbn; tauto); cbn [on_case snd];
    unfold swiftSearchInstance.
  all: repeat first
    [ done
    | rewrite flags_emits
    | rewrite flags_focus_main
    | rewrite flags_main_window_call
    | (rewrite flags_when; [|intros ?])
    | match goal with
      | |- flags (emit _ ?x) = _ => change (flags x = flags s)
      | |- flags (match ?x with _ => _ end) = _ => destruct x
      | |- flags (match ?x with _ => _ end _) = _ => destruct x
      end ].
  - unfold browserLogin. destruct (parseDomain _); cbn;
      unfold login_config, updateUserConfig; by destruct (truthy _).
Qed.

(** X20.  A command behind a guard does nothing without its fields.  For
    each case whose body tests the fields it uses, an argument that carries
    no field besides cmd completes without any effect and without touching
    the state. *)
Theorem guarded_case_without_fields_does_nothing c ctx arg st :
  In c guarded_cases ->
  (forall k, k <> "cmd" -> prop k arg = VUndef) ->
  on_case tag mainWindowName welcomeScreenName parseDomain inAutoUpdateTrigger
    c ctx arg st
  = (Completed, st).
Proof.
  intros Hin Hk. cbn in Hin.
  repeat (destruct Hin as [<-|Hin]; [cbn [on_case]; rewrite ?Hk by done; reflexivity|]).
  done.
Qed.

(** X21.  A pod address is stored before it is checked.  Without a --url=
    argument and with isPodConfigured unset, browserLogin writes newPodUrl to
    the user configuration first; when that address cannot be parsed the case
    raises, no probe is issued and nothing is logged, and the address stays
    in the stored configuration. *)
Theorem browserLogin_keeps_a_bad_address ctx arg st :
  urlFromCmd ctx = None ->
  truthy (prop "isPodConfigured" arg) = false ->
  truthy (prop "newPodUrl" arg) = true ->
  parseDomain (prop "newPodUrl" arg) = None ->
  exists st',
    browserLogin parseDomain ctx arg st = (Raised "parseDomain", st') /\
    userConfigURL st' = prop "newPodUrl" arg /\
    assoc "browserLoginAutoConnect" (userConfig st')
    = Some (prop "browserLoginAutoConnect" arg) /\
    login st' = login st /\ flags st' = flags st /\ effects st' = effects st.
Proof.
  intros Hcmd Hpod Hnew Hparse.
  assert (Hu : userConfigURL (login_config arg st) = prop "newPodUrl" arg).
  { unfold userConfigURL, login_config, updateUserConfig. rewrite Hpod. cbn.
    by rewrite assoc_set_prop_eq. }
  exists (login_config arg st). unfold browserLogin, podUrl.
  rewrite Hcmd, Hu, Hnew, Hparse.
  split; [done|]. split; [done|].
  unfold login_config, updateUserConfig. rewrite Hpod. cbn.
  rewrite assoc_set_prop_ne by done. by rewrite assoc_set_prop_eq.
Qed.

End Frames.

Lemma call_is_logged_before_it_is_handled_witness :
  let arg := message apiCmds.setLocale [("locale", VStr "fr-FR")] in
  let st := init {[1%nat]} ∅ in
  let record := LogApiCall (VStr "setLocale") arg in
  valid_sender st main_ctx = true /\ truthy arg = true /\
  logApiCallParams apiCmds.name arg = Some record /\
  exists evs,
    effects (on_message apiCmds.name "main" "welcome" labels_parseDomain
               (fun _ => false) main_ctx arg st).2
    = effects st ++ record :: evs.
Proof.
  intros arg st record.
  assert (Hv : valid_sender st main_ctx = true) by reflexivity.
  assert (Ha : truthy arg = true) by reflexivity.
  assert (Hl : logApiCallParams apiCmds.name arg = Some record) by reflexivity.
  exact (conj Hv (conj Ha (conj Hl
           (call_is_logged_before_it_is_handled apiCmds.name "main" "welcome"
              labels_parseDomain (fun _ => false) main_ctx arg st record
              Hv Ha Hl)))).
Defined.


Lemma flags_have_four_writers_witness :
  let arg := message apiCmds.browserLogin [("isPodConfigured", VBool true)] in
  let st := init {[1%nat]} ∅ in
  switch_on apiCmds.name apiCmds.on_cases (prop "cmd" arg)
  = Some apiCmds.browserLogin /\
  flags (on_message apiCmds.name "main" "welcome" labels_parseDomain
           (fun _ => false) main_ctx arg st).2
  = flags st.
Proof.
  intros arg st.
  assert (Hc : switch_on apiCmds.name apiCmds.on_cases (prop "cmd" arg)
               = Some apiCmds.browserLogin) by reflexivity.
  refine (conj Hc
            (flags_have_four_writers apiCmds.name "main" "welcome"
               labels_parseDomain (fun _ => false) main_ctx arg st _)).
  intros c H. rewrite Hc in H. injection H as <-. cbn.
  intros [H|[H|[H|[H|[]]]]]; discriminate H.
Defined.

Lemma guarded_case_without_fields_does_nothing_witness :
  let arg := VObj [("cmd", VStr "setLocale")] in
  let st := init {[1%nat]} ∅ in
  In apiCmds.setLocale guarded_cases /\
  on_case apiCmds.name "main" "welcome" labels_parseDomain (fun _ => false)
    apiCmds.setLocale main_ctx arg st
  = (Completed, st).
Proof.
  intros arg st.
  assert (Hin : In apiCmds.setLocale guarded_cases) by (cbn; tauto).
  refine (conj Hin
            (guarded_case_without_fields_does_nothing apiCmds.name "main"
               "welcome" labels_parseDomain (fun _ => false) apiCmds.setLocale
               main_ctx arg st Hin _)).
  intros k Hk. cbn. destruct (String.eqb_spec k "cmd"); [done | reflexivity].
Defined.

Lemma browserLogin_keeps_a_bad_address_witness :
  let arg := message apiCmds.browserLogin [("newPodUrl", VStr "localhost")] in
  let st := init {[1%nat]} ∅ in
  urlFromCmd stranger_ctx = None /\
  labels_parseDomain (VStr "localhost") = None /\
  exists st',
    browserLogin labels_parseDomain stranger_ctx arg st
    = (Raised "parseDomain", st') /\
    userConfigURL st' = VStr "localhost" /\
    effects st' = effects st.
Proof.
  intros arg st.
  assert (Hcmd : urlFromCmd stranger_ctx = None) by reflexivity.
  assert (Hpod : truthy (prop "isPodConfigured" arg) = false) by reflexivity.
  assert (Hnew : truthy (prop "newPodUrl" arg) = true) by reflexivity.
  assert (Hparse : labels_parseDomain (prop "newPodUrl" arg) = None)
    by reflexivity.
  destruct (browserLogin_keeps_a_bad_address labels_parseDomain stranger_ctx
              arg st Hcmd Hpod Hnew Hparse)
    as (st' & H1 & H2 & _ & _ & _ & H3).
  exact (conj Hcmd (conj Hparse
           (ex_intro _ st' (conj H1 (conj H2 H3))))).
Defined.

(** *** The bookkeeping of the proxy prompts *)

Lemma filter_snoc {A} (f : A -> bool) xs x :
  List.filter f (xs ++ [x]) = List.filter f xs ++ (if f x then [x] else []).
Proof. by rewrite List.filter_app. Qed.

Lemma consistent_emit ev st :
  is_prompt ev = false -> login_consistent st -> login_consistent (emit ev st).
Proof.
  intros Hev H. unfold login_consistent in *. cbn.
  rewrite !filter_snoc, Hev.
  assert (Hf : is_first_prompt ev = false) by (by destruct ev as [| | | | | | | |? []| | |]).
  by rewrite Hf, !app_nil_r.
Qed.

Lemma consistent_emits evs st :
  Forall (fun ev => is_prompt ev = false) evs ->
  login_consistent st -> login_consistent (emits evs st).
Proof.
  intros Hevs. revert st. induction Hevs as [|ev evs Hev _ IH]; intros st H;
    [done|].
  apply IH. by apply consistent_emit.
Qed.

Lemma consistent_loadPodUrl proxyLogin st :
  login_consistent st -> login_consistent (loadPodUrl proxyLogin st).
Proof.
  intros H. unfold loadPodUrl.
  apply consistent_emit; [done|].
  apply (consistent_emit (LogInfo "loading pod URL. Proxy: " [VBool proxyLogin]))
    in H; [|done].
  exact H.
Qed.

Lemma consistent_on_response ctx body st :
  login_consistent st -> login_consistent (on_response ctx body st).
Proof.
  intros H. unfold on_response.
  apply (consistent_emit
           (LogInfo "main-api-handler: check auth response" [body])) in H;
    [|done].
  destruct (is_str "sso" _).
  - apply consistent_emits; [by repeat constructor | exact H].
  - match goal with
    | |- context [emit ?ev (emit ?ev0 st)] =>
        apply (consistent_emit ev) in H; [|done]
    end.
    destruct (mainWebContents ctx) as [[]|]; try exact H.
    apply consistent_emits; [by repeat constructor | exact H].
Qed.

Lemma consistent_on_failure proxyLogin error st :
  login_consistent st -> login_consistent (on_failure proxyLogin error st).
Proof.
  intros (Hr & Hp & Hc & Hn & Hf). unfold on_failure.
  destruct (needs_credentials proxyLogin error); [|by repeat split].
  unfold login_consistent. cbn.
  rewrite !List.filter_app, !length_app. cbn [List.filter is_prompt length].
  rewrite !app_nil_r, Hr, Hf.
  split; [lia|]. split; [lia|]. split; [done|]. split; [lia|].
  destruct (List.filter is_prompt (effects st)) as [|x xs]; [done|].
  assert (E : (Z.of_nat (length (x :: xs)) =? 0) = false)
    by (apply Z.eqb_neq; cbn [length]; lia).
  rewrite E. cbn. by rewrite app_nil_r.
Qed.

Lemma consistent_on_credentials user pass st :
  login_consistent st -> login_consistent (on_credentials user pass st).
Proof.
  intros (Hr & Hp & Hc & Hn & Hf). unfold on_credentials. cbn.
  destruct (resolutionCallback (login st)) as [p|] eqn:Ep.
  - apply consistent_loadPodUrl. apply consistent_emit; [done|].
    unfold login_consistent. cbn. rewrite length_insert.
    rewrite Hc in Hn |- *. by repeat split.
  - unfold login_consistent. cbn.
    rewrite Hc in Hn |- *. by repeat split.
Qed.

Lemma consistent_probe_settles ctx i r st :
  login_consistent st -> login_consistent (probe_settles ctx i r st).
Proof.
  intros H. unfold probe_settles.
  destruct (probes (login st) !! i) as [[proxyLogin|]|]; try exact H.
  destruct r.
  - apply consistent_on_response. exact H.
  - apply consistent_on_failure. exact H.
Qed.

Lemma consistent_step ev st :
  login_consistent st -> login_consistent (login_step ev st).
Proof.
  intros H. destruct ev; cbn [login_step].
  - by apply consistent_loadPodUrl.
  - by apply consistent_probe_settles.
  - by apply consistent_on_credentials.
  - exact H.
Qed.

Lemma consistent_run evs st :
  login_consistent st -> login_consistent (login_run evs st).
Proof.
  revert st. induction evs as [|ev evs IH]; intros st H; [done|].
  apply IH. by apply consistent_step.
Qed.

Lemma consistent_browserLogin parseDomain ctx arg st :
  login_consistent st ->
  login_consistent (browserLogin parseDomain ctx arg st).2.
Proof.
  intros H.
  assert (H2 : login_consistent (login_config arg st))
    by (unfold login_config, updateUserConfig; by destruct (truthy _)).
  unfold browserLogin. destruct (parseDomain _); cbn [snd]; [|exact H2].
  apply consistent_loadPodUrl. apply consistent_emit; [done|]. exact H2.
Qed.

(** X22.  The retry counter counts the prompts.  After a browserLogin
    command on the state the module starts in, followed by any sequence of
    probes issued, probes settled, credentials entered and proxy challenges,
    the retry counter equals the number of credential prompts shown so far,
    and so does the number of promises created; the first prompt is worded
    as a first attempt and no later one is. *)
Theorem retries_count_the_prompts parseDomain ctx arg evs ws vs :
  let st := login_run evs (browserLogin parseDomain ctx arg (init ws vs)).2 in
  let prompts := List.filter is_prompt (effects st) in
  retries (proxyDetails (login st)) = Z.of_nat (length prompts) /\
  length (promises (login st)) = length prompts /\
  List.filter is_first_prompt (effects st) = take 1 prompts.
Proof.
  intros st prompts.
  assert (H : login_consistent st).
  { apply consistent_run, consistent_browserLogin. by repeat split. }
  by destruct H as (Hr & Hp & _ & _ & Hf).
Qed.



End HandlerLaws.
